(** * deep-research: the recursive text splitter and the research orchestrator

    A shallow embedding of [py_src/text_splitter.py] and
    [py_src/deep_research.py], and the properties of the two algorithms.

    Python values are modelled as follows.
    - [int] is [Z] (unbounded, as in Python); [//] by 2 is [Z.div], [>>] is
      [Z.shiftr] (both round towards minus infinity, as Python does).
    - [str] is [string]; a character is an [ascii] (code points 0..255).
    - [list] is [list]; [xs.append(x)] is [xs ++ [x]].
    - a call that may raise returns an [outcome]; recursion whose depth is
      not bounded by the shape of an argument takes a [fuel] and answers
      [NoFuel] when it runs out. *)

From Stdlib Require Import ZArith String Ascii Bool Lia DecimalString.
From stdpp Require Import base list.

Local Open Scope Z_scope.

(** ** Exceptions and outcomes *)

(** The exception classes raised in the two modules; [ServiceError] stands
    for whatever subclass of [Exception] a collaborator raises. *)
Inductive exn : Type :=
  | ValueError
  | IndexError
  | RuntimeError
  | ServiceError (code : nat).

Inductive outcome (A : Type) : Type :=
  | Ok (a : A)
  | Raise (e : exn)
  | NoFuel.

Arguments Ok {A} a.
Arguments Raise {A} e.
Arguments NoFuel {A}.

Definition out_bind {A B} (o : outcome A) (k : A -> outcome B) : outcome B :=
  match o with
  | Ok a => k a
  | Raise e => Raise e
  | NoFuel => NoFuel
  end.

(** ** Python's [str] and [list] primitives *)

Module Py.

Definition len (s : string) : Z := Z.of_nat (String.length s).

(** [bool(s)]: a string is truthy when it is not empty. *)
Definition truthy (s : string) : bool :=
  match s with EmptyString => false | String _ _ => true end.

(** [c.isspace()] on code points below 256. *)
Definition isspace (c : ascii) : bool :=
  let n := N_of_ascii c in
  ((9 <=? n) && (n <=? 13) || (28 <=? n) && (n <=? 32)
   || (n =? 133) || (n =? 160))%N.

Fixpoint lstrip_by (p : ascii -> bool) (s : string) : string :=
  match s with
  | EmptyString => EmptyString
  | String c s' => if p c then lstrip_by p s' else s
  end.

Fixpoint rstrip_by (p : ascii -> bool) (s : string) : string :=
  match s with
  | EmptyString => EmptyString
  | String c s' =>
      match rstrip_by p s' with
      | EmptyString => if p c then EmptyString else String c EmptyString
      | r => String c r
      end
  end.

(** The string does not begin with a character that [p] accepts. *)
Definition clean_head (p : ascii -> bool) (s : string) : Prop :=
  match s with
  | EmptyString => True
  | String c _ => p c = false
  end.

(** [s.strip()] *)
Definition strip (s : string) : string :=
  rstrip_by isspace (lstrip_by isspace s).

(** [s.lstrip(chars)] *)
Definition lstrip_chars (chars : list ascii) (s : string) : string :=
  lstrip_by (fun c => existsb (Ascii.eqb c) chars) s.

(** [sep.join(xs)] *)
Definition join (sep : string) (xs : list string) : string :=
  String.concat sep xs.

(** [sub in s] *)
Fixpoint contains (sub s : string) : bool :=
  String.prefix sub s
  || match s with
     | EmptyString => false
     | String _ s' => contains sub s'
     end.

(** [list(s)] *)
Fixpoint chars (s : string) : list string :=
  match s with
  | EmptyString => []
  | String c s' => String c EmptyString :: chars s'
  end.

Fixpoint rev_string (acc : list ascii) (tl : string) : string :=
  match acc with
  | [] => tl
  | c :: acc' => rev_string acc' (String c tl)
  end.

(** The scan of [s.split(sep)] for a non-empty [sep]: [cur] holds the
    current piece reversed, [skip] counts the characters of a matched
    separator still to be passed over. *)
Fixpoint split_go (sep : string) (skip : nat) (cur : list ascii)
    (s : string) : list string :=
  match s with
  | EmptyString => [rev_string cur EmptyString]
  | String c s' =>
      match skip with
      | S k => split_go sep k cur s'
      | O =>
          if String.prefix sep s
          then rev_string cur EmptyString
                 :: split_go sep (Nat.pred (String.length sep)) [] s'
          else split_go sep O (c :: cur) s'
      end
  end.

(** [s.split(sep)]; an empty separator raises [ValueError]. *)
Definition split (s sep : string) : outcome (list string) :=
  match sep with
  | EmptyString => Raise ValueError
  | _ => Ok (split_go sep O [] s)
  end.

(** [xs[:n]] *)
Definition slice_to {A} (xs : list A) (n : Z) : list A :=
  if 0 <=? n then firstn (Z.to_nat n) xs
  else firstn (Z.to_nat (Z.of_nat (length xs) + n)) xs.

(** Line boundaries recognised by [str.splitlines], below code point 256. *)
Definition is_linebreak (c : ascii) : bool :=
  let n := N_of_ascii c in
  ((10 <=? n) && (n <=? 13) || (28 <=? n) && (n <=? 30) || (n =? 133))%N.

(** [s.splitlines()]: a carriage return followed by a line feed is one
    boundary, and a boundary at the very end opens no further line. *)
Fixpoint splitlines_go (cur : list ascii) (s : string) : list string :=
  match s with
  | EmptyString =>
      match cur with
      | [] => []
      | _ => [rev_string cur EmptyString]
      end
  | String c s' =>
      if is_linebreak c then
        rev_string cur EmptyString ::
          match s' with
          | String c' s'' =>
              if (Ascii.eqb c "013" && Ascii.eqb c' "010")%bool
              then splitlines_go [] s''
              else splitlines_go [] s'
          | EmptyString => []
          end
      else splitlines_go (c :: cur) s'
  end.

Definition splitlines (s : string) : list string := splitlines_go [] s.

(** Every character of the string passes [p]. *)
Fixpoint all_chars (p : ascii -> bool) (s : string) : bool :=
  match s with
  | EmptyString => true
  | String c s' => p c && all_chars p s'
  end.

(** The string holds no line boundary. *)
Definition one_line (s : string) : bool :=
  all_chars (fun c => negb (is_linebreak c)) s.

(** [s.startswith(p)] *)
Definition startswith (s p : string) : bool := String.prefix p s.

(** [list(dict.fromkeys(xs))]: the keys in the order of their first
    insertion. *)
Definition fromkeys_insert (keys : list string) (x : string) : list string :=
  if existsb (String.eqb x) keys then keys else keys ++ [x].

Definition fromkeys (xs : list string) : list string :=
  fold_left fromkeys_insert xs [].

(** [s * n] *)
Fixpoint repeat (s : string) (n : nat) : string :=
  match n with
  | O => EmptyString
  | S n' => String.append s (repeat s n')
  end.

(** [str(n)] for an [int]. *)
Definition str_of_int (n : Z) : string :=
  NilZero.string_of_int (Z.to_int n).

End Py.


(** ** [text_splitter.py] *)

Module TextSplitter.

(** The fields set by [TextSplitter.__init__]. *)
Record TextSplitter : Type := mkTextSplitter {
  chunk_size : Z;
  chunk_overlap : Z
}.

(** [TextSplitter.__init__] *)
Definition init (chunk_size chunk_overlap : Z) : outcome TextSplitter :=
  if chunk_overlap >=? chunk_size then Raise ValueError
  else Ok (mkTextSplitter chunk_size chunk_overlap).

(** [TextSplitter._join_docs] *)
Definition join_docs (docs : list string) (separator : string)
    : option string :=
  let text := Py.strip (Py.join separator docs) in
  if Py.truthy text then Some text else None.

(** The [while] loop of [merge_splits]: pieces leave [current] at the
    front; [current.pop(0)] and [current[0]] raise [IndexError] on an
    empty list. *)
Fixpoint merge_evict (self : TextSplitter) (length : Z)
    (current : list string) (total : Z) : outcome (list string * Z) :=
  if (total >? chunk_overlap self)
     || ((total + length >? chunk_size self) && (total >? 0))
  then
    match current with
    | [] => Raise IndexError
    | c :: rest => merge_evict self length rest (total - Py.len c)
    end
  else Ok (current, total).

(** The state of the [for] loop of [merge_splits]. *)
Record merge_state : Type := mkMergeState {
  docs : list string;
  current : list string;
  total : Z
}.

(** One iteration of the [for] loop of [merge_splits], for the piece [d]. *)
Definition merge_step (self : TextSplitter) (separator : string)
    (st : merge_state) (d : string) : outcome merge_state :=
  let length := Py.len d in
  if total st + length >=? chunk_size self then
    match current st with
    | [] => Ok (mkMergeState (docs st) [d] (total st + length))
    | _ :: _ =>
        let docs' :=
          match join_docs (current st) separator with
          | Some doc => docs st ++ [doc]
          | None => docs st
          end in
        out_bind (merge_evict self length (current st) (total st))
          (fun '(current', total') =>
             Ok (mkMergeState docs' (current' ++ [d]) (total' + length)))
    end
  else Ok (mkMergeState (docs st) (current st ++ [d]) (total st + length)).

Fixpoint merge_loop (self : TextSplitter) (separator : string)
    (splits : list string) (st : merge_state) : outcome merge_state :=
  match splits with
  | [] => Ok st
  | d :: splits' =>
      out_bind (merge_step self separator st d)
        (merge_loop self separator splits')
  end.

(** [TextSplitter.merge_splits] *)
Definition merge_splits (self : TextSplitter) (splits : list string)
    (separator : string) : outcome (list string) :=
  out_bind (merge_loop self separator splits (mkMergeState [] [] 0))
    (fun st =>
       match join_docs (current st) separator with
       | Some doc => Ok (docs st ++ [doc])
       | None => Ok (docs st)
       end).

(** The fields of [RecursiveCharacterTextSplitter]. *)
Record RecursiveCharacterTextSplitter : Type := mkRecursive {
  base :> TextSplitter;
  separators : list string
}.

Definition newline : string := String "010" EmptyString.

Definition default_separators : list string :=
  [String.append newline newline; newline; "."; ","; ">"; "<"; " "; ""]%string.

(** [RecursiveCharacterTextSplitter.__init__]; [separators or [...]]
    takes the default for [None] and for an empty list. *)
Definition init_recursive (chunk_size chunk_overlap : Z)
    (separators : option (list string))
    : outcome RecursiveCharacterTextSplitter :=
  out_bind (init chunk_size chunk_overlap)
    (fun b =>
       Ok (mkRecursive b
             match separators with
             | Some (s :: l) => s :: l
             | _ => default_separators
             end)).

(** The separator chosen by [split_text]: the first of the list that is
    empty or occurs in the text, the last of the list when there is none;
    [self.separators[-1]] raises [IndexError] on an empty list. *)
Definition choose_separator (seps : list string) (text : string)
    : outcome string :=
  match last seps with
  | None => Raise IndexError
  | Some dflt =>
      Ok (default dflt
            (find (fun s => String.eqb s "" || Py.contains s text) seps))
  end.

(** [text.split(separator) if separator else list(text)] *)
Definition split_on (text separator : string) : outcome (list string) :=
  if Py.truthy separator then Py.split text separator
  else Ok (Py.chars text).

(** [final_chunks.extend(self.merge_splits(good_splits, separator))]
    under [if good_splits:]. *)
Definition flush (self : TextSplitter) (separator : string)
    (final_chunks good_splits : list string) : outcome (list string) :=
  match good_splits with
  | [] => Ok final_chunks
  | _ :: _ =>
      out_bind (merge_splits self good_splits separator)
        (fun merged => Ok (final_chunks ++ merged))
  end.

(** The [for] loop of [split_text] followed by the final flush; [rec] is
    the recursive call [self.split_text]. *)
Fixpoint split_loop (self : TextSplitter) (separator : string)
    (rec : string -> outcome (list string)) (splits : list string)
    (final_chunks good_splits : list string) : outcome (list string) :=
  match splits with
  | [] => flush self separator final_chunks good_splits
  | s :: splits' =>
      if Py.len s <? chunk_size self then
        split_loop self separator rec splits' final_chunks
          (good_splits ++ [s])
      else
        out_bind (flush self separator final_chunks good_splits)
          (fun final_chunks' =>
             out_bind (rec s)
               (fun sub =>
                  split_loop self separator rec splits'
                    (final_chunks' ++ sub) []))
  end.

(** [RecursiveCharacterTextSplitter.split_text]; each nested call takes
    one unit of [fuel]. *)
Fixpoint split_text (fuel : nat) (self : RecursiveCharacterTextSplitter)
    (text : string) : outcome (list string) :=
  match fuel with
  | O => NoFuel
  | S fuel' =>
      if negb (Py.truthy text) then Ok []
      else
        out_bind (choose_separator (separators self) text)
          (fun separator =>
             out_bind (split_on text separator)
               (fun splits =>
                  split_loop self separator (split_text fuel' self)
                    splits [] []))
  end.

(** [TextSplitter.create_documents] for the recursive splitter. *)
Fixpoint create_documents (fuel : nat)
    (self : RecursiveCharacterTextSplitter) (texts : list string)
    : outcome (list string) :=
  match texts with
  | [] => Ok []
  | text :: texts' =>
      out_bind (split_text fuel self text)
        (fun chunks =>
           out_bind (create_documents fuel self texts')
             (fun rest => Ok (chunks ++ rest)))
  end.

(** [TextSplitter.split_documents] *)
Definition split_documents (fuel : nat)
    (self : RecursiveCharacterTextSplitter) (docs : list string)
    : outcome (list string) :=
  create_documents fuel self docs.

(** The sum of the lengths of the pieces of a buffer, which is what
    [total] holds in [merge_splits]. *)
Definition sum_len (l : list string) : Z :=
  fold_right (fun s a => Py.len s + a) 0 l.

(** [sub] is a slice of [text]. *)
Definition occurs_in (sub text : string) : Prop :=
  exists pre post, text = (pre ++ sub ++ post)%string.

(** [w] is a run of consecutive elements of [l]. *)
Definition window_of (w l : list string) : Prop :=
  exists a b, l = a ++ w ++ b.

(** A chunk cut from [text] by the splitter: for one of the separators of
    the splitter, the stripped join of pieces that are each shorter than
    [chunk_size] and whose lengths, without the separators between them,
    sum to at most [chunk_size]; the join is a slice of the text. *)
Definition packed (self : RecursiveCharacterTextSplitter)
    (text chunk : string) : Prop :=
  exists separator pieces,
    In separator (separators self) /\
    chunk = Py.strip (Py.join separator pieces) /\
    occurs_in (Py.join separator pieces) text /\
    Forall (fun d => Py.len d < chunk_size self) pieces /\
    sum_len pieces <= chunk_size self.

(** The splitter built by [RecursiveCharacterTextSplitter(chunk_size,
    chunk_overlap)]. *)
Definition splitter (chunk_size chunk_overlap : Z)
    : RecursiveCharacterTextSplitter :=
  mkRecursive (mkTextSplitter chunk_size chunk_overlap) default_separators.

End TextSplitter.

(** ** [deep_research.py] *)

Module Research.

Record SearchResult : Type := mkSearchResult {
  url : string;
  markdown : string
}.

Record SerpQuery : Type := mkSerpQuery {
  query : string;
  research_goal : string
}.

Record ResearchProgress : Type := mkResearchProgress {
  current_depth : Z;
  total_depth : Z;
  current_breadth : Z;
  total_breadth : Z;
  current_query : option string;
  total_queries : Z;
  completed_queries : Z
}.

Record ResearchResult : Type := mkResearchResult {
  learnings : list string;
  visited_urls : list string
}.

(** What a collaborator answers: a value, or an exception (a subclass of
    [Exception]). *)
Inductive response (A : Type) : Type :=
  | Returns (a : A)
  | Raises (e : exn).

Arguments Returns {A} a.
Arguments Raises {A} e.

(** One entry of the dictionary passed to [report]. *)
Inductive assignment : Type :=
  | SetCurrentDepth (v : Z)
  | SetTotalDepth (v : Z)
  | SetCurrentBreadth (v : Z)
  | SetTotalBreadth (v : Z)
  | SetCurrentQuery (v : option string)
  | SetTotalQueries (v : Z)
  | SetCompletedQueries (v : Z).

(** [setattr(progress, k, v)] *)
Definition setattr (p : ResearchProgress) (a : assignment)
    : ResearchProgress :=
  match a with
  | SetCurrentDepth v =>
      mkResearchProgress v (total_depth p) (current_breadth p)
        (total_breadth p) (current_query p) (total_queries p)
        (completed_queries p)
  | SetTotalDepth v =>
      mkResearchProgress (current_depth p) v (current_breadth p)
        (total_breadth p) (current_query p) (total_queries p)
        (completed_queries p)
  | SetCurrentBreadth v =>
      mkResearchProgress (current_depth p) (total_depth p) v
        (total_breadth p) (current_query p) (total_queries p)
        (completed_queries p)
  | SetTotalBreadth v =>
      mkResearchProgress (current_depth p) (total_depth p)
        (current_breadth p) v (current_query p) (total_queries p)
        (completed_queries p)
  | SetCurrentQuery v =>
      mkResearchProgress (current_depth p) (total_depth p)
        (current_breadth p) (total_breadth p) v (total_queries p)
        (completed_queries p)
  | SetTotalQueries v =>
      mkResearchProgress (current_depth p) (total_depth p)
        (current_breadth p) (total_breadth p) (current_query p) v
        (completed_queries p)
  | SetCompletedQueries v =>
      mkResearchProgress (current_depth p) (total_depth p)
        (current_breadth p) (total_breadth p) (current_query p)
        (total_queries p) v
  end.

Definition newline : string := String "010" EmptyString.

(** *** The parsing loops *)

(** The loop of [generate_serp_queries] over the lines of the completion. *)
Definition serp_line (queries : list SerpQuery) (line : string)
    : list SerpQuery :=
  if Py.truthy (Py.strip line)
  then queries ++ [mkSerpQuery (Py.strip line) (Py.strip line)]
  else queries.

(** [generate_serp_queries], from the text of the completion on. *)
Definition parse_serp_queries (text : string) (num_queries : Z)
    : list SerpQuery :=
  Py.slice_to (fold_left serp_line (Py.splitlines text) []) num_queries.

(** The prompt of [generate_serp_queries]; [if learnings:] holds for a
    non-empty list. *)
Definition serp_prompt (query : string) (num_queries : Z)
    (learnings : list string) : string :=
  (("Generate up to " ++ Py.str_of_int num_queries
      ++ " SERP queries to research the topic.")
   ++ match learnings with
      | [] => ""
      | _ :: _ => " Use previous learnings: " ++ Py.join newline learnings
      end
   ++ newline ++ "Topic: " ++ query)%string.

(** The loop of [process_serp_result] over the lines of the completion. *)
Definition learning_line (acc : list string * list string) (line : string)
    : list string * list string :=
  if Py.startswith line "-"
  then (fst acc ++ [Py.lstrip_chars ["-"; " "]%char line], snd acc)
  else if Py.truthy (Py.strip line)
       then (fst acc, snd acc ++ [Py.strip line])
       else acc.

Definition parse_serp_result (output : string)
    (num_learnings num_follow_up_questions : Z)
    : list string * list string :=
  let acc := fold_left learning_line (Py.splitlines output) ([], []) in
  (Py.slice_to (fst acc) num_learnings,
   Py.slice_to (snd acc) num_follow_up_questions).

Definition result_prompt (query : string) (result : list SearchResult)
    (num_learnings num_follow_up_questions : Z) : string :=
  let contents :=
    map markdown (List.filter (fun r => Py.truthy (markdown r)) result) in
  let text := Py.join newline contents in
  ("Using the following SERP results for '" ++ query
     ++ "', generate up to " ++ Py.str_of_int num_learnings
     ++ " learnings and " ++ Py.str_of_int num_follow_up_questions
     ++ " follow-up questions." ++ newline ++ text)%string.

(** *** Aggregation *)

(** Lines 190-195 of [deep_research]: the child results are concatenated
    in order, then each list goes through [list(dict.fromkeys(...))]. *)
Definition merge_results (results : list ResearchResult) : ResearchResult :=
  let merged :=
    fold_left
      (fun m r =>
         mkResearchResult (learnings m ++ learnings r)
           (visited_urls m ++ visited_urls r))
      results (mkResearchResult [] []) in
  mkResearchResult (Py.fromkeys (learnings merged))
    (Py.fromkeys (visited_urls merged)).

(** *** Child parameters *)

Definition new_depth (depth : Z) : Z := depth - 1.
Definition new_breadth (breadth : Z) : Z := Z.max 1 (breadth / 2).

(** The parameters of the calls [i] levels below a call with
    [(breadth, depth)]. *)
Fixpoint level_params (i : nat) (breadth depth : Z) : Z * Z :=
  match i with
  | O => (breadth, depth)
  | S j => level_params j (new_breadth breadth) (new_depth depth)
  end.

(** The query handed to the child. *)
Definition next_query (q : SerpQuery) (follow_ups : list string) : string :=
  (research_goal q ++ newline ++ "Follow ups: "
     ++ Py.join " " follow_ups)%string.

(** *** The final synthesis *)

(** ["\n".join(f"- {x}" for x in xs)] *)
Definition bullet_list (xs : list string) : string :=
  Py.join newline (map (fun x => "- " ++ x)%string xs).

Definition report_prompt (prompt joined : string) : string :=
  ("Write a detailed report on: " ++ prompt ++ newline ++ "Learnings:"
     ++ newline ++ joined)%string.

Definition answer_prompt (prompt joined : string) : string :=
  (prompt ++ newline ++ "Use these learnings:" ++ newline ++ joined)%string.

(** *** The search client *)

Record FirecrawlClient : Type := mkFirecrawlClient {
  client_api_key : option string;
  client_base_url : string
}.

(** [FirecrawlClient.__init__]; [base_url or "..."] takes the default for
    [None] and for the empty string. *)
Definition FirecrawlClient_init (api_key base_url : option string)
    : FirecrawlClient :=
  mkFirecrawlClient api_key
    match base_url with
    | Some (String c u) => String c u
    | _ => "https://api.firecrawl.com"%string
    end.

(** [get_firecrawl_client]: [slot] is the module variable
    [_firecrawl_client] and [getenv] is [os.getenv]; the client and the new
    content of the variable are returned. *)
Definition get_firecrawl_client (getenv : string -> option string)
    (slot : option FirecrawlClient)
    : FirecrawlClient * option FirecrawlClient :=
  match slot with
  | Some client => (client, slot)
  | None =>
      let client :=
        FirecrawlClient_init (getenv "FIRECRAWL_KEY"%string)
          (getenv "FIRECRAWL_BASE_URL"%string) in
      (client, Some client)
  end.

(** *** What the result processor is expected to return *)

(** The learnings: the lines that start with a dash, without the dashes
    and spaces at their head. *)
Definition learnings_of_lines (lines : list string) : list string :=
  map (Py.lstrip_chars ["-"; " "]%char)
    (List.filter (fun line => Py.startswith line "-") lines).

(** The follow-up questions: the other lines that are not blank,
    stripped. *)
Definition follow_ups_of_lines (lines : list string) : list string :=
  map Py.strip
    (List.filter
       (fun line =>
          negb (Py.startswith line "-") && Py.truthy (Py.strip line))
       lines).

(** *** The collaborators, the progress records and the observer *)

Section Orchestrator.

(** The state of the outside world that the collaborators read and change. *)
Variable World : Type.

(** [openai.ChatCompletion.create(...)["choices"][0]["message"]["content"]]
    for the prompt sent as the user message. *)
Variable complete : string -> World -> response string * World.

(** The request issued by [FirecrawlClient.search] and the conversion of
    its reply into [SearchResult]s. *)
Variable http_search :
  string -> Z -> World -> response (list SearchResult) * World.

(** [os.getenv("FIRECRAWL_KEY")], as read by [get_firecrawl_client]. *)
Variable api_key : option string.

(** What a run reads and changes: the outside world, the [ResearchProgress]
    objects created so far (a reference is an index into [heap]), and what
    the observer has been handed: at each delivery, the reference it got and
    the contents of the object at that moment. The observer [on_progress]
    is taken to record what it is handed: it neither raises nor writes to
    the object. What [print] writes is not modelled. *)
Record state : Type := mkState {
  world : World;
  heap : list ResearchProgress;
  observed : list (nat * ResearchProgress)
}.

Definition M (A : Type) : Type := state -> outcome A * state.

Definition ret {A} (a : A) : M A := fun st => (Ok a, st).

Definition bind {A B} (m : M A) (k : A -> M B) : M B :=
  fun st =>
    match m st with
    | (Ok a, st') => k a st'
    | (Raise e, st') => (Raise e, st')
    | (NoFuel, st') => (NoFuel, st')
    end.

Local Notation "'let*' x ':=' m 'in' k" := (bind m (fun x => k))
  (at level 10, x binder, m at level 100, k at level 200).

Definition set_world (st : state) (w : World) : state :=
  mkState w (heap st) (observed st).

Definition lift {A} (call : World -> response A * World) : M A :=
  fun st =>
    match call (world st) with
    | (Returns a, w) => (Ok a, set_world st w)
    | (Raises e, w) => (Raise e, set_world st w)
    end.

(** [FirecrawlClient.search]; [not self.api_key] holds for [None] and for
    the empty string. *)
Definition FirecrawlClient_search (query : string) (limit : Z)
    : M (list SearchResult) :=
  match api_key with
  | Some (String _ _) => lift (http_search query limit)
  | _ => fun st => (Raise RuntimeError, st)
  end.

(** [generate_serp_queries] *)
Definition generate_serp_queries (query : string) (num_queries : Z)
    (learnings : list string) : M (list SerpQuery) :=
  let* text := lift (complete (serp_prompt query num_queries learnings)) in
  ret (parse_serp_queries text num_queries).

(** [process_serp_result] *)
Definition process_serp_result (query : string) (result : list SearchResult)
    (num_learnings num_follow_up_questions : Z)
    : M (list string * list string) :=
  let* output := lift (complete (result_prompt query result num_learnings
                                   num_follow_up_questions)) in
  ret (parse_serp_result output num_learnings num_follow_up_questions).

(** [progress = ResearchProgress(...)] at the head of [deep_research]: a new
    object, whose reference is returned. *)
Definition new_progress (breadth depth : Z) : M nat :=
  fun st =>
    (Ok (length (heap st)),
     mkState (world st)
       (heap st ++ [mkResearchProgress depth depth breadth breadth None 0 0])
       (observed st)).

(** The closure [report] of the call that owns the object [r]. The
    dictionary is built from the object as it is at the call
    ([progress.completed_queries + 1]); its entries are assigned in order and
    the object is then handed to [on_progress], when there is one. *)
Definition report (on_progress : bool) (r : nat)
    (update : ResearchProgress -> list assignment) : M unit :=
  fun st =>
    let h := alter (fun p => fold_left setattr (update p) p) r (heap st) in
    (Ok tt,
     mkState (world st) h
       (if on_progress
        then observed st ++ match h !! r with
                            | Some p => [(r, p)]
                            | None => []
                            end
        else observed st)).

(** The body of the [for q in serp_queries] loop after a successful search;
    [rec] is the recursive call. *)
Definition research_found
    (rec : string -> Z -> Z -> list string -> list string -> M ResearchResult)
    (on_progress : bool) (r : nat) (breadth depth : Z)
    (learnings visited_urls : list string) (results : list ResearchResult)
    (q : SerpQuery) (res : list SearchResult) : M (list ResearchResult) :=
  let urls := List.filter Py.truthy (map url res) in
  let* '(new_learnings, follow_ups) :=
    process_serp_result (query q) res 3 (Z.max 1 (breadth / 2)) in
  let all_learnings := learnings ++ new_learnings in
  let all_urls := visited_urls ++ urls in
  let* results' :=
    if new_depth depth >? 0 then
      let* sub_result := rec (next_query q follow_ups) (new_breadth breadth)
                           (new_depth depth) all_learnings all_urls in
      ret (results ++ [sub_result])
    else ret (results ++ [mkResearchResult all_learnings all_urls]) in
  let* _ := report on_progress r
              (fun p => [SetCompletedQueries (completed_queries p + 1)]) in
  ret results'.

(** One iteration of the loop: [try: ... except Exception: ... continue]. *)
Definition research_step
    (rec : string -> Z -> Z -> list string -> list string -> M ResearchResult)
    (on_progress : bool) (r : nat) (breadth depth : Z)
    (learnings visited_urls : list string) (results : list ResearchResult)
    (q : SerpQuery) : M (list ResearchResult) :=
  fun st =>
    match FirecrawlClient_search (query q) 5 st with
    | (Ok res, st') =>
        research_found rec on_progress r breadth depth learnings visited_urls
          results q res st'
    | (Raise _, st') => (Ok results, st')
    | (NoFuel, st') => (NoFuel, st')
    end.

Fixpoint research_loop
    (rec : string -> Z -> Z -> list string -> list string -> M ResearchResult)
    (on_progress : bool) (r : nat) (breadth depth : Z)
    (learnings visited_urls : list string) (serp_queries : list SerpQuery)
    (results : list ResearchResult) : M (list ResearchResult) :=
  match serp_queries with
  | [] => ret results
  | q :: serp_queries' =>
      let* results' := research_step rec on_progress r breadth depth
                         learnings visited_urls results q in
      research_loop rec on_progress r breadth depth learnings visited_urls
        serp_queries' results'
  end.

(** The body of [deep_research], open in its recursive call. *)
Definition research_body
    (rec : string -> Z -> Z -> list string -> list string -> M ResearchResult)
    (on_progress : bool) (query : string) (breadth depth : Z)
    (learnings visited_urls : list string) : M ResearchResult :=
  let* r := new_progress breadth depth in
  let* serp_queries := generate_serp_queries query breadth learnings in
  let* _ := report on_progress r
              (fun _ => [SetTotalQueries (Z.of_nat (length serp_queries));
                         SetCurrentQuery
                           match serp_queries with
                           | q :: _ => Some (Research.query q)
                           | [] => None
                           end]) in
  let* results := research_loop rec on_progress r breadth depth learnings
                    visited_urls serp_queries [] in
  ret (merge_results results).

(** [deep_research]; each nested call takes one unit of [fuel]. *)
Fixpoint deep_research_fuel (fuel : nat) (on_progress : bool)
    (query : string) (breadth depth : Z)
    (learnings visited_urls : list string) : M ResearchResult :=
  match fuel with
  | O => fun st => (NoFuel, st)
  | S fuel' =>
      research_body (deep_research_fuel fuel' on_progress) on_progress
        query breadth depth learnings visited_urls
  end.

(** [deep_research]: a call with [depth] nests at most [depth - 1] calls,
    so this much fuel is never used up (see [deep_research_terminates]). *)
Definition deep_research (query : string) (breadth depth : Z)
    (learnings visited_urls : list string) (on_progress : bool)
    : M ResearchResult :=
  deep_research_fuel (S (Z.to_nat depth)) on_progress query breadth depth
    learnings visited_urls.

(** [write_final_report] *)
Definition write_final_report (prompt : string)
    (learnings visited_urls : list string) : M string :=
  let joined := bullet_list learnings in
  let url_section := bullet_list visited_urls in
  let* report := lift (complete (report_prompt prompt joined)) in
  ret (report ++ newline ++ newline ++ "## Sources" ++ newline
         ++ url_section)%string.

(** [write_final_answer] *)
Definition write_final_answer (prompt : string) (learnings : list string)
    : M string :=
  let joined := Py.join newline learnings in
  let* answer := lift (complete (answer_prompt prompt joined)) in
  ret (Py.strip answer).

End Orchestrator.

Arguments world {World} s.
Arguments heap {World} s.
Arguments observed {World} s.
Arguments mkState {World} world heap observed.
Arguments ret {World A} a st.
Arguments bind {World A B} m k st.
Arguments report {World} on_progress r update st.
Arguments new_progress {World} breadth depth st.
Arguments set_world {World} st w.
Arguments lift {World A} call st.

(** The state in which the loop of a call made in [st] starts (lines 143
    to 160): the call has created its progress object, the planner has left
    the world [w] and returned [serp_queries], and the first [report] has
    set [total_queries] and [current_query] and handed the object to the
    observer. *)
Definition planned {World} (on_progress : bool) (breadth depth : Z)
    (serp_queries : list SerpQuery) (st : state World) (w : World)
    : state World :=
  let p :=
    mkResearchProgress depth depth breadth breadth
      match serp_queries with
      | q :: _ => Some (query q)
      | [] => None
      end
      (Z.of_nat (length serp_queries)) 0 in
  mkState w (heap st ++ [p])
    (if on_progress then observed st ++ [(length (heap st), p)]
     else observed st).

(** The state after [report({"completed_queries": ...})] of the call that
    owns the object [r] (line 189). *)
Definition counted {World} (on_progress : bool) (r : nat) (st : state World)
    : state World :=
  snd (report on_progress r
         (fun p => [SetCompletedQueries (completed_queries p + 1)]) st).

(** *** Reading the trace of a run

    An entry is a reference together with the contents of a progress
    object: an element of [observed], or a cell of [heap] with its index. *)

(** The entry belongs to the object [r] of a call with [(breadth, depth)]. *)
Definition own_entry (r : nat) (breadth depth : Z)
    (e : nat * ResearchProgress) : Prop :=
  fst e = r /\ total_breadth (snd e) = breadth /\ total_depth (snd e) = depth.

(** The entry belongs to an object created after [r], by a call some
    [i >= 1] levels below the call with [(breadth, depth)]. *)
Definition nested_entry (r : nat) (breadth depth : Z)
    (e : nat * ResearchProgress) : Prop :=
  (r < fst e)%nat /\
  exists i : nat,
    (1 <= i)%nat /\
    level_params i breadth depth
      = (total_breadth (snd e), total_depth (snd e)) /\
    0 < total_depth (snd e).

(** What one call with [(breadth, depth)] does to the state: the objects
    that existed before are untouched, what the observer receives and the
    objects created are those of the call or of the calls below it. *)
Definition call_effect {World} (breadth depth : Z) (st st' : state World)
    : Prop :=
  (forall i p, heap st !! i = Some p -> heap st' !! i = Some p) /\
  (exists log,
     observed st' = observed st ++ log /\
     Forall (fun e => own_entry (length (heap st)) breadth depth e \/
                      nested_entry (length (heap st)) breadth depth e) log) /\
  (forall i p,
     heap st' !! i = Some p -> (length (heap st) <= i)%nat ->
     own_entry (length (heap st)) breadth depth (i, p) \/
     nested_entry (length (heap st)) breadth depth (i, p)).

(** What a part of the loop of the call owning [r] does to the state. *)
Definition loop_effect {World} (r : nat) (breadth depth : Z)
    (st st' : state World) : Prop :=
  (r < length (heap st))%nat ->
  (length (heap st) <= length (heap st'))%nat /\
  (forall i p, i <> r -> heap st !! i = Some p -> heap st' !! i = Some p) /\
  (forall p, heap st !! r = Some p ->
     exists p', heap st' !! r = Some p' /\
       total_breadth p' = total_breadth p /\
       total_depth p' = total_depth p /\
       completed_queries p <= completed_queries p') /\
  (forall p, heap st !! r = Some p ->
     total_breadth p = breadth -> total_depth p = depth ->
     exists log,
       observed st' = observed st ++ log /\
       Forall (fun e => own_entry r breadth depth e \/
                        nested_entry r breadth depth e) log) /\
  (forall i p,
     heap st' !! i = Some p -> (length (heap st) <= i)%nat ->
     nested_entry r breadth depth (i, p)).

(** What the specification says the planner returns: one query per
    non-blank line, the stripped line being both its text and its goal, cut
    to [max_queries] entries. *)
Definition queries_per_line (text : string) (max_queries : nat)
    : list SerpQuery :=
  firstn max_queries
    (map (fun line => mkSerpQuery (Py.strip line) (Py.strip line))
       (List.filter (fun line => Py.truthy (Py.strip line))
          (Py.splitlines text))).


(** *** Comparing progress objects *)

(** The progress object [p'] differs from [p] at most in
    [completed_queries]. *)
Definition same_but_completed (p p' : ResearchProgress) : Prop :=
  current_depth p' = current_depth p /\
  total_depth p' = total_depth p /\
  current_breadth p' = current_breadth p /\
  total_breadth p' = total_breadth p /\
  current_query p' = current_query p /\
  total_queries p' = total_queries p.

(** The list is empty or, once its duplicates are dropped, begins with the
    distinct values of [given]. *)
Definition keeps_given (given xs : list string) : Prop :=
  xs = [] \/ exists rest, Py.fromkeys xs = Py.fromkeys given ++ rest.

End Research.

(** ** Stub collaborators

    A world for running the orchestrator on concrete inputs: the state of
    the world is the text of the last query searched; the search service
    fails for the query [bad] and otherwise returns one page about the
    query; the completion service plans the same four queries for every
    topic and extracts one finding, naming the last query searched, and one
    follow-up question. *)

Module Stub.

Import Research.

Definition World : Type := string.

Definition plan_text : string :=
  ("alpha" ++ newline ++ "bad" ++ newline ++ newline ++ "  gamma "
     ++ newline ++ "delta" ++ newline)%string.

Definition complete (prompt : string) (w : World) : response string * World :=
  if Py.startswith prompt "Generate"
  then (Returns plan_text, w)
  else (Returns ("- about " ++ w ++ newline ++ "why?")%string, w).

Definition http_search (q : string) (limit : Z) (w : World)
    : response (list SearchResult) * World :=
  if String.eqb q "bad" then (Raises (ServiceError 500), q)
  else (Returns [mkSearchResult ("http://" ++ q)%string "page"], q).

Definition api_key : option string := Some "key"%string.

Definition start : state World := mkState ""%string [] [].

Definition run (breadth depth : Z) : outcome ResearchResult * state World :=
  deep_research World complete http_search api_key "topic" breadth depth
    [] [] true start.

(** The four planned queries, and the state of a call of depth 1 and
    breadth 4 as its loop starts. *)
Definition queries : list SerpQuery :=
  [mkSerpQuery "alpha" "alpha"; mkSerpQuery "bad" "bad";
   mkSerpQuery "gamma" "gamma"; mkSerpQuery "delta" "delta"]%string.

Definition node : state World :=
  mkState ""%string [mkResearchProgress 1 1 4 4 None 4 0] [].

(** A call that is never made. *)
Definition no_call (q : string) (b d : Z) (L V : list string)
    : M World ResearchResult :=
  fun st => (NoFuel, st).

(** A completion service that is out of quota, and one that plans but is
    out of quota when asked to extract. *)
Definition failing_complete (prompt : string) (w : World)
    : response string * World :=
  (Raises (ServiceError 429), w).

Definition planning_complete (prompt : string) (w : World)
    : response string * World :=
  if Py.startswith prompt "Generate"
  then (Returns plan_text, w)
  else (Raises (ServiceError 429), w).

(** A completion service whose plans thin out below the root: for the
    topic it plans [alpha], [bad] and [beta]; for the follow-up of [beta] it
    plans [gamma]; for any other follow-up it plans nothing. It extracts
    the finding [about beta] after the search for [beta] and the finding
    [about alpha] after any other search, and no follow-up question. *)
Definition thinning_complete (prompt : string) (w : World)
    : response string * World :=
  if Py.startswith prompt "Generate" then
    if Py.contains "Follow ups" prompt then
      if Py.contains "beta" prompt then (Returns "gamma"%string, w)
      else (Returns EmptyString, w)
    else (Returns ("alpha" ++ newline ++ "bad" ++ newline ++ "beta")%string, w)
  else if String.eqb w "beta" then (Returns "- about beta"%string, w)
       else (Returns "- about alpha"%string, w).

Definition thinning_run (breadth depth : Z)
    : outcome ResearchResult * state World :=
  deep_research World thinning_complete http_search api_key "topic" breadth
    depth [] [] true start.


End Stub.

(** * Properties *)

(** ** The text splitter *)

Section SplitterFacts.

Import TextSplitter.

Lemma out_bind_not_value_error {A B} (o : outcome A) (k : A -> outcome B) :
  o <> Raise ValueError ->
  (forall a, k a <> Raise ValueError) ->
  out_bind o k <> Raise ValueError.
Proof.
  intros Ho Hk. destruct o as [a|e|]; simpl; [apply Hk| |discriminate].
  intros [= ->]. now apply Ho.
Qed.

Lemma merge_evict_not_value_error self len cur tot :
  merge_evict self len cur tot <> Raise ValueError.
Proof.
  revert tot. induction cur as [|c rest IH]; intros tot; simpl;
    destruct (_ || _); try discriminate. apply IH.
Qed.

Lemma merge_step_not_value_error self sep st d :
  merge_step self sep st d <> Raise ValueError.
Proof.
  unfold merge_step. destruct (_ >=? _); [|discriminate].
  destruct (current st); [discriminate|].
  apply out_bind_not_value_error.
  - apply merge_evict_not_value_error.
  - intros [c t]. discriminate.
Qed.

Lemma merge_loop_not_value_error self sep splits st :
  merge_loop self sep splits st <> Raise ValueError.
Proof.
  revert st. induction splits as [|d splits IH]; intros st; simpl.
  - discriminate.
  - apply out_bind_not_value_error; auto using merge_step_not_value_error.
Qed.

Lemma merge_splits_not_value_error self splits sep :
  merge_splits self splits sep <> Raise ValueError.
Proof.
  unfold merge_splits. apply out_bind_not_value_error.
  - apply merge_loop_not_value_error.
  - intros st. destruct (join_docs _ _); discriminate.
Qed.

Lemma flush_not_value_error self sep fc gs :
  flush self sep fc gs <> Raise ValueError.
Proof.
  destruct gs; simpl; [discriminate|].
  apply out_bind_not_value_error.
  - apply merge_splits_not_value_error.
  - discriminate.
Qed.

Lemma split_loop_not_value_error self sep rec splits :
  (forall s, rec s <> Raise ValueError) ->
  forall fc gs, split_loop self sep rec splits fc gs <> Raise ValueError.
Proof.
  intros Hrec. induction splits as [|s splits IH]; intros fc gs; simpl.
  - apply flush_not_value_error.
  - destruct (_ <? _); [apply IH|].
    apply out_bind_not_value_error; [apply flush_not_value_error|].
    intros fc'. apply out_bind_not_value_error; auto.
Qed.

Lemma split_on_not_value_error text sep :
  split_on text sep <> Raise ValueError.
Proof.
  unfold split_on. destruct sep; simpl; discriminate.
Qed.

Lemma split_text_not_value_error fuel self text :
  split_text fuel self text <> Raise ValueError.
Proof.
  revert text. induction fuel as [|fuel IH]; intros text; simpl.
  - discriminate.
  - destruct (negb _); [discriminate|].
    apply out_bind_not_value_error.
    + unfold choose_separator. destruct (last _); discriminate.
    + intros sep. apply out_bind_not_value_error.
      * apply split_on_not_value_error.
      * intros splits. apply split_loop_not_value_error, IH.
Qed.

(** *** Pieces produced by [split] and [list] *)

Lemma rev_string_length acc tl :
  String.length (Py.rev_string acc tl) = (length acc + String.length tl)%nat.
Proof.
  revert tl. induction acc as [|c acc IH]; intros tl; simpl; [done|].
  rewrite IH. simpl. lia.
Qed.

Lemma chars_length text s :
  In s (Py.chars text) -> String.length s = 1%nat.
Proof.
  induction text as [|c text IH]; simpl; [done|].
  intros [<-|H]; [done|auto].
Qed.

(** No piece is longer than what was scanned. *)
Lemma split_go_length_le sep skip cur text s :
  In s (Py.split_go sep skip cur text) ->
  (String.length s <= length cur + String.length text)%nat.
Proof.
  revert skip cur.
  induction text as [|c text IH]; intros skip cur; cbn [Py.split_go].
  - intros [<-|[]]. rewrite rev_string_length. simpl. lia.
  - destruct skip as [|k].
    + destruct (String.prefix sep (String c text)).
      * intros [<-|H].
        -- rewrite rev_string_length. simpl. lia.
        -- apply IH in H. simpl in *. lia.
      * intros H. apply IH in H. simpl in *. lia.
    + intros H. apply IH in H. simpl in *. lia.
Qed.

(** When the separator occurs, every piece is strictly shorter. *)
Lemma split_go_length_lt sep cur text s :
  Py.contains sep text = true ->
  sep <> EmptyString ->
  In s (Py.split_go sep 0 cur text) ->
  (String.length s < length cur + String.length text)%nat.
Proof.
  intros Hc Hsep. revert cur Hc.
  induction text as [|c text IH]; intros cur Hc.
  - destruct sep; [done|]. simpl in Hc. discriminate.
  - cbn [Py.split_go].
    destruct (String.prefix sep (String c text)) eqn:Hp.
    + intros [<-|H].
      * rewrite rev_string_length. simpl. lia.
      * apply split_go_length_le in H. simpl in *. lia.
    + intros H. cbn [Py.contains] in Hc. rewrite Hp in Hc. simpl in Hc.
      apply (IH (c :: cur)) in H; [|done]. simpl in *. lia.
Qed.

(** *** [merge_splits] with a non-negative overlap returns *)

Lemma sum_len_snoc l d : sum_len (l ++ [d]) = sum_len l + Py.len d.
Proof.
  induction l as [|x l IH]; simpl; [lia|]. rewrite IH. lia.
Qed.

Lemma sum_len_nonneg l : 0 <= sum_len l.
Proof.
  induction l as [|x l IH]; simpl; [lia|]. unfold Py.len. lia.
Qed.

Lemma merge_evict_returns self len cur :
  0 <= chunk_overlap self ->
  exists cur',
    merge_evict self len cur (sum_len cur) = Ok (cur', sum_len cur').
Proof.
  intros Hov. induction cur as [|c rest IH].
  - simpl. destruct (Z.gtb_spec 0 (chunk_overlap self)); [lia|].
    rewrite andb_false_r. simpl. by exists [].
  - cbn [merge_evict].
    destruct (_ || _).
    + replace (sum_len (c :: rest) - Py.len c) with (sum_len rest)
        by (simpl; lia).
      exact IH.
    + by exists (c :: rest).
Qed.

Lemma merge_step_returns self sep st d :
  0 <= chunk_overlap self ->
  total st = sum_len (current st) ->
  exists st',
    merge_step self sep st d = Ok st' /\ total st' = sum_len (current st').
Proof.
  intros Hov Hinv. unfold merge_step.
  destruct (_ >=? _).
  - destruct (current st) as [|c rest] eqn:Hcur.
    + eexists. split; [reflexivity|]. simpl. rewrite Hinv. simpl. lia.
    + rewrite Hinv.
      destruct (merge_evict_returns self (Py.len d) (c :: rest) Hov)
        as [cur' ->].
      simpl. eexists. split; [reflexivity|]. simpl.
      by rewrite sum_len_snoc.
  - eexists. split; [reflexivity|]. simpl. rewrite sum_len_snoc. lia.
Qed.

Lemma merge_loop_returns self sep splits st :
  0 <= chunk_overlap self ->
  total st = sum_len (current st) ->
  exists st', merge_loop self sep splits st = Ok st'.
Proof.
  intros Hov. revert st. induction splits as [|d splits IH]; intros st Hinv.
  - by exists st.
  - simpl. destruct (merge_step_returns self sep st d Hov Hinv)
      as (st1 & -> & Hinv1).
    simpl. by apply IH.
Qed.

Lemma merge_splits_returns self splits sep :
  0 <= chunk_overlap self ->
  exists chunks, merge_splits self splits sep = Ok chunks.
Proof.
  intros Hov. unfold merge_splits.
  destruct (merge_loop_returns self sep splits (mkMergeState [] [] 0) Hov)
    as [st ->]; [done|].
  simpl. destruct (join_docs _ _); eauto.
Qed.

Lemma flush_returns self sep fc gs :
  0 <= chunk_overlap self ->
  exists chunks, flush self sep fc gs = Ok chunks.
Proof.
  intros Hov. destruct gs as [|g gs]; simpl; [eauto|].
  destruct (merge_splits_returns self (g :: gs) sep Hov) as [m ->].
  simpl. eauto.
Qed.

Lemma split_loop_returns self sep rec splits :
  0 <= chunk_overlap self ->
  (forall s, In s splits -> chunk_size self <= Py.len s ->
             exists chunks, rec s = Ok chunks) ->
  forall fc gs, exists chunks, split_loop self sep rec splits fc gs = Ok chunks.
Proof.
  intros Hov. induction splits as [|s splits IH]; intros Hrec fc gs; simpl.
  - by apply flush_returns.
  - destruct (Z.ltb_spec (Py.len s) (chunk_size self)).
    + apply IH. intros s' Hin. apply Hrec. by right.
    + destruct (flush_returns self sep fc gs Hov) as [fc' ->]. simpl.
      destruct (Hrec s) as [sub ->]; [by left|done|]. simpl.
      apply IH. intros s' Hin. apply Hrec. by right.
Qed.

Lemma choose_separator_spec seps text :
  In EmptyString seps ->
  exists sep,
    choose_separator seps text = Ok sep /\
    (sep = EmptyString \/ Py.contains sep text = true).
Proof.
  intros Hin. unfold choose_separator.
  destruct (last seps) as [dflt|] eqn:Hlast.
  - destruct (find _ seps) as [s|] eqn:Hfind.
    + exists s. split; [done|].
      apply find_some in Hfind as [_ Hs].
      apply orb_true_iff in Hs as [Hs|Hs]; [|by right].
      left. by apply String.eqb_eq.
    + eapply find_none in Hfind; [|exact Hin]. simpl in Hfind. discriminate.
  - apply last_None in Hlast. subst. destruct Hin.
Qed.

(** With a chunk size of at least two and a non-negative overlap,
    [split_text] returns after at most as many nested calls as the text has
    characters. *)
Lemma split_text_returns_fuel (self : RecursiveCharacterTextSplitter) :
  2 <= chunk_size self ->
  0 <= chunk_overlap self ->
  In EmptyString (separators self) ->
  forall fuel text,
    (String.length text < fuel)%nat ->
    exists chunks, split_text fuel self text = Ok chunks.
Proof.
  intros Hcs Hov Hsep. induction fuel as [|fuel IH]; intros text Hlen; [lia|].
  cbn [split_text]. destruct text as [|c text]; [by exists []|].
  cbn [Py.truthy negb].
  destruct (choose_separator_spec (separators self) (String c text) Hsep)
    as (sep & -> & Hchoice).
  cbn [out_bind]. unfold split_on.
  destruct sep as [|a sep]; cbn [Py.truthy Py.split out_bind].
  - apply split_loop_returns; [done|].
    intros s Hin Hbig. apply chars_length in Hin. unfold Py.len in Hbig. lia.
  - destruct Hchoice as [|Hc]; [done|].
    apply split_loop_returns; [done|].
    intros s Hin _. apply IH.
    apply split_go_length_lt in Hin; [|done..]. simpl in *. lia.
Qed.

(** X1. With a chunk size of at least two, an overlap that is not negative
    and the empty string among the separators, [split_text] returns its
    chunks for every text: a depth of one more than the length of the text
    is never used up. *)
Theorem split_text_returns (self : RecursiveCharacterTextSplitter) text :
  2 <= chunk_size self ->
  0 <= chunk_overlap self ->
  In EmptyString (separators self) ->
  exists chunks, split_text (S (String.length text)) self text = Ok chunks.
Proof.
  intros. apply split_text_returns_fuel; auto.
Qed.

(** *** What [total] bounds *)

Lemma merge_evict_bound self len cur cur' tot' :
  merge_evict self len cur (sum_len cur) = Ok (cur', tot') ->
  tot' = sum_len cur' /\ (tot' + len <= chunk_size self \/ tot' = 0).
Proof.
  induction cur as [|c rest IH]; cbn [merge_evict].
  - destruct (_ || _); [discriminate|]. intros [= <- <-]. by split; [|right].
  - destruct (_ || _) eqn:Hc.
    + replace (sum_len (c :: rest) - Py.len c) with (sum_len rest)
        by (simpl; lia).
      exact IH.
    + intros [= <- <-]. split; [done|].
      apply orb_false_iff in Hc as [_ Hc].
      apply andb_false_iff in Hc as [Hc|Hc].
      * left. rewrite Z.gtb_ltb in Hc. apply Z.ltb_ge in Hc.
        simpl in Hc. lia.
      * right. pose proof (sum_len_nonneg (c :: rest)) as Hpos.
        rewrite Z.gtb_ltb in Hc. apply Z.ltb_ge in Hc.
        simpl in Hc, Hpos. lia.
Qed.

Lemma string_length_append (a b : string) :
  String.length (a ++ b) = (String.length a + String.length b)%nat.
Proof. induction a as [|c a IH]; simpl; [done|]. by rewrite IH. Qed.

Lemma lstrip_by_length p s :
  (String.length (Py.lstrip_by p s) <= String.length s)%nat.
Proof.
  induction s as [|c s IH]; simpl; [done|]. destruct (p c); simpl; lia.
Qed.

Lemma rstrip_by_length p s :
  (String.length (Py.rstrip_by p s) <= String.length s)%nat.
Proof.
  induction s as [|c s IH]; simpl; [done|].
  destruct (Py.rstrip_by p s); [destruct (p c)|]; simpl in *; lia.
Qed.

Lemma strip_length s : Py.len (Py.strip s) <= Py.len s.
Proof.
  unfold Py.len, Py.strip.
  pose proof (rstrip_by_length Py.isspace (Py.lstrip_by Py.isspace s)).
  pose proof (lstrip_by_length Py.isspace s). lia.
Qed.

Lemma join_length sep pieces :
  Py.len (Py.join sep pieces)
  = sum_len pieces + Py.len sep * Z.of_nat (Nat.pred (length pieces)).
Proof.
  unfold Py.join.
  induction pieces as [|x pieces IH]; [unfold Py.len; simpl; lia|].
  destruct pieces as [|y pieces]; [simpl; unfold Py.len; lia|].
  change (String.concat sep (x :: y :: pieces))
    with (x ++ sep ++ String.concat sep (y :: pieces))%string.
  unfold Py.len in *.
  rewrite !string_length_append, !Nat2Z.inj_add, IH.
  simpl. unfold Py.len. lia.
Qed.

(** C2. With [chunk_size = 5] and [chunk_overlap = 0] the text [a b c d]
    comes back as one chunk of seven characters, made of four pieces: the
    separators put back by the join are not counted in [total]. *)
Theorem chunk_longer_than_chunk_size :
  init_recursive 5 0 None = Ok (splitter 5 0) /\
  (forall fuel,
     split_text (S fuel) (splitter 5 0) "a b c d" = Ok ["a b c d"%string]) /\
  Py.split "a b c d" " " = Ok ["a"; "b"; "c"; "d"]%string /\
  Py.len "a b c d" = 7 /\
  chunk_size (splitter 5 0) < Py.len "a b c d".
Proof.
  repeat split.
Qed.

(** The splitter of the specification's example returns, and returns
    something, on a run of ten thousand characters without a separator. *)
Lemma split_text_long_run :
  exists chunk chunks,
    split_text 1 (splitter 50 10) (Py.repeat "x" (100 * 100))
    = Ok (chunk :: chunks).
Proof. eexists _, _. vm_compute. reflexivity. Qed.

(** A negative overlap passes the constructor, and [merge_splits] then
    pops from an empty buffer. *)
Lemma negative_overlap_index_error :
  init_recursive 5 (-1) None = Ok (splitter 5 (-1)) /\
  split_text 1 (splitter 5 (-1)) "ab cd ef gh" = Raise IndexError.
Proof. split; reflexivity. Qed.

(** C4. With [chunk_size = 1] and [chunk_overlap = 0], which the
    constructor accepts, [split_text] on the text [x] calls itself on [x]
    again: no amount of fuel is enough. *)
Theorem split_text_no_base_case :
  init_recursive 1 0 None = Ok (splitter 1 0) /\
  forall fuel, split_text fuel (splitter 1 0) "x" = NoFuel.
Proof.
  split; [reflexivity|].
  induction fuel as [|fuel IH]; [reflexivity|].
  cbn. cbn in IH. rewrite IH. reflexivity.
Qed.

(** C8. Constructing a splitter with [chunk_overlap >= chunk_size] raises
    [ValueError] (for instance with 100 and 100) and constructing one with
    [chunk_overlap < chunk_size] succeeds; the check belongs to the
    constructor alone: [merge_splits] and [split_text] never raise it,
    whatever the fields of the splitter they are given. *)
Theorem init_checks_overlap (chunk_size chunk_overlap : Z) :
  (chunk_overlap >= chunk_size ->
   init chunk_size chunk_overlap = Raise ValueError /\
   forall seps,
     init_recursive chunk_size chunk_overlap seps = Raise ValueError) /\
  (chunk_overlap < chunk_size ->
   init chunk_size chunk_overlap
     = Ok (mkTextSplitter chunk_size chunk_overlap) /\
   forall seps, exists self,
     init_recursive chunk_size chunk_overlap seps = Ok self /\
     base self = mkTextSplitter chunk_size chunk_overlap) /\
  (forall (self : TextSplitter) splits separator,
     merge_splits self splits separator <> Raise ValueError) /\
  (forall fuel (self : RecursiveCharacterTextSplitter) text,
     split_text fuel self text <> Raise ValueError).
Proof.
  repeat split.
  - unfold init. destruct (Z.geb_spec chunk_overlap chunk_size); [done|lia].
  - intros seps. unfold init_recursive, init.
    destruct (Z.geb_spec chunk_overlap chunk_size); [done|lia].
  - unfold init. destruct (Z.geb_spec chunk_overlap chunk_size); [lia|done].
  - intros seps. unfold init_recursive, init.
    destruct (Z.geb_spec chunk_overlap chunk_size); [lia|].
    simpl. eexists. split; reflexivity.
  - apply merge_splits_not_value_error.
  - apply split_text_not_value_error.
Qed.

Lemma init_checks_overlap_witness :
  init 100 100 = Raise ValueError /\
  init 100 99 = Ok (mkTextSplitter 100 99).
Proof.
  split.
  - apply (proj1 (init_checks_overlap 100 100)). lia.
  - apply (proj1 (proj2 (init_checks_overlap 100 99))). lia.
Defined.

End SplitterFacts.

(** ** The query planner *)

Section PlannerFacts.

Import Research.

Lemma serp_line_fold lines acc :
  fold_left serp_line lines acc
  = acc ++ map (fun line => mkSerpQuery (Py.strip line) (Py.strip line))
             (List.filter (fun line => Py.truthy (Py.strip line)) lines).
Proof.
  revert acc. induction lines as [|line lines IH]; intros acc; simpl.
  - by rewrite app_nil_r.
  - rewrite IH. unfold serp_line.
    destruct (Py.truthy (Py.strip line)); [|done].
    by rewrite <- app_assoc.
Qed.

Lemma parse_serp_queries_per_line text num_queries :
  0 <= num_queries ->
  parse_serp_queries text num_queries
  = queries_per_line text (Z.to_nat num_queries).
Proof.
  intros Hn. unfold parse_serp_queries, queries_per_line, Py.slice_to.
  destruct (Z.leb_spec 0 num_queries); [|lia].
  by rewrite serp_line_fold.
Qed.

(** With a negative [num_queries] the slice drops queries from the end
    instead. *)
Lemma parse_serp_queries_negative :
  parse_serp_queries Stub.plan_text (-1)
  = [mkSerpQuery "alpha" "alpha"; mkSerpQuery "bad" "bad";
     mkSerpQuery "gamma" "gamma"]%string.
Proof. reflexivity. Qed.

(** C9. Whatever text the completion service answers, the planner returns
    one query per non-blank line of it, the stripped line being both the
    query and its research goal, cut to [num_queries] entries; a text
    without a non-blank line gives the empty list and no exception. *)
Theorem generate_serp_queries_per_line
    (World : Type) (complete : string -> World -> response string * World)
    (query : string) (num_queries : Z) (learnings : list string)
    (st : state World) (text : string) (w : World) :
  0 <= num_queries ->
  complete (serp_prompt query num_queries learnings) (world st)
    = (Returns text, w) ->
  let queries := queries_per_line text (Z.to_nat num_queries) in
  generate_serp_queries World complete query num_queries learnings st
    = (Ok queries, set_world st w) /\
  Z.of_nat (length queries) <= num_queries /\
  (forall q, In q queries ->
     Research.query q = research_goal q /\
     Py.truthy (Research.query q) = true /\
     exists line, In line (Py.splitlines text) /\
                  Research.query q = Py.strip line) /\
  (Forall (fun line => Py.truthy (Py.strip line) = false)
     (Py.splitlines text) -> queries = []).
Proof.
  intros Hn Hc queries. repeat split.
  - unfold generate_serp_queries, bind, lift, ret. rewrite Hc.
    by rewrite parse_serp_queries_per_line.
  - unfold queries, queries_per_line. rewrite length_take. lia.
  - unfold queries, queries_per_line in H.
    apply list_elem_of_In, elem_of_take in H as (i & H & _).
    apply list_elem_of_lookup_2, list_elem_of_In, in_map_iff in H
      as (line & <- & _). done.
  - unfold queries, queries_per_line in H.
    apply list_elem_of_In, elem_of_take in H as (i & H & _).
    apply list_elem_of_lookup_2, list_elem_of_In, in_map_iff in H
      as (line & <- & Hl). apply filter_In in Hl as [_ Hl]. done.
  - unfold queries, queries_per_line in H.
    apply list_elem_of_In, elem_of_take in H as (i & H & _).
    apply list_elem_of_lookup_2, list_elem_of_In, in_map_iff in H
      as (line & <- & Hl). apply filter_In in Hl as [Hl _]. eauto.
  - intros Hblank. unfold queries, queries_per_line.
    replace (List.filter _ _) with (@nil string); [by destruct (Z.to_nat _)|].
    symmetry. induction (Py.splitlines text) as [|line lines IH]; [done|].
    apply Forall_cons in Hblank as [Hl Hrest]. simpl. rewrite Hl. auto.
Qed.

End PlannerFacts.

(** ** Aggregation: [list(dict.fromkeys(...))] *)

Section FromkeysFacts.

Import Research.

Lemma existsb_eqb_In x keys :
  existsb (String.eqb x) keys = true <-> In x keys.
Proof.
  rewrite existsb_exists. split.
  - intros (y & Hy & Heq). apply String.eqb_eq in Heq. by subst.
  - intros Hx. exists x. split; [done|apply String.eqb_refl].
Qed.

Lemma fromkeys_fold_extends xs acc :
  exists rest, fold_left Py.fromkeys_insert xs acc = acc ++ rest.
Proof.
  revert acc. induction xs as [|x xs IH]; intros acc; simpl.
  - exists []. by rewrite app_nil_r.
  - unfold Py.fromkeys_insert at 2. destruct (existsb _ acc); [apply IH|].
    destruct (IH (acc ++ [x])) as [rest ->].
    exists (x :: rest). by rewrite <- app_assoc.
Qed.

Lemma fromkeys_fold_In xs acc y :
  In y (fold_left Py.fromkeys_insert xs acc) <-> In y acc \/ In y xs.
Proof.
  revert acc. induction xs as [|x xs IH]; intros acc; simpl.
  - tauto.
  - rewrite IH. unfold Py.fromkeys_insert.
    destruct (existsb _ acc) eqn:Hx.
    + apply existsb_eqb_In in Hx. split; [tauto|].
      intros [H|[<-|H]]; tauto.
    + rewrite in_app_iff. simpl. tauto.
Qed.

Lemma fromkeys_fold_NoDup xs acc :
  NoDup acc -> NoDup (fold_left Py.fromkeys_insert xs acc).
Proof.
  revert acc. induction xs as [|x xs IH]; intros acc Hacc; simpl; [done|].
  apply IH. unfold Py.fromkeys_insert.
  destruct (existsb _ acc) eqn:Hx; [done|].
  apply NoDup_app. repeat split; [done| |apply NoDup_singleton].
  intros y Hy ->%list_elem_of_singleton.
  apply list_elem_of_In, existsb_eqb_In in Hy. congruence.
Qed.


Lemma fromkeys_app xs ys :
  exists rest, Py.fromkeys (xs ++ ys) = Py.fromkeys xs ++ rest.
Proof.
  unfold Py.fromkeys. rewrite fold_left_app. apply fromkeys_fold_extends.
Qed.

Lemma merge_results_fold results acc :
  fold_left
    (fun m r =>
       mkResearchResult (learnings m ++ learnings r)
         (visited_urls m ++ visited_urls r))
    results acc
  = mkResearchResult
      (learnings acc ++ concat (map learnings results))
      (visited_urls acc ++ concat (map visited_urls results)).
Proof.
  revert acc. induction results as [|r results IH]; intros acc; simpl.
  - rewrite !app_nil_r. by destruct acc.
  - rewrite IH. simpl. by rewrite <- !app_assoc.
Qed.


Lemma merge_results_keeps results res :
  In res results ->
  (forall x, In x (learnings res) ->
             In x (learnings (merge_results results))) /\
  (forall u, In u (visited_urls res) ->
             In u (visited_urls (merge_results results))).
Proof.
  intros Hres. unfold merge_results. rewrite merge_results_fold. simpl.
  split; intros x Hx; apply fromkeys_fold_In; right;
    apply in_concat; eexists; (split; [apply in_map, Hres|done]).
Qed.

End FromkeysFacts.

(** ** The orchestrator *)

Section ResearchFacts.

Import Research.

Context {World : Type}.
Context (complete : string -> World -> response string * World).
Context (http_search :
  string -> Z -> World -> response (list SearchResult) * World).
Context (api_key : option string).

Local Abbreviation search := (FirecrawlClient_search World http_search api_key).
Local Abbreviation process := (process_serp_result World complete).
Local Abbreviation plan := (generate_serp_queries World complete).
Local Abbreviation found := (research_found World complete).
Local Abbreviation step := (research_step World complete http_search api_key).
Local Abbreviation loop := (research_loop World complete http_search api_key).
Local Abbreviation body := (research_body World complete http_search api_key).
Local Abbreviation dr :=
  (deep_research_fuel World complete http_search api_key).
Local Ltac split_effect := split; [|split; [|split; [|split]]].

Local Arguments report : simpl never.

Local Abbreviation recursion :=
  (string -> Z -> Z -> list string -> list string -> M World ResearchResult).

(** *** The collaborators touch the outside world only *)

Lemma lift_state {A} (call : World -> response A * World) (st : state World) :
  heap (snd (lift call st)) = heap st /\
  observed (snd (lift call st)) = observed st.
Proof. unfold lift. destruct (call _) as [[a|e] w]; done. Qed.

Lemma search_state q limit (st : state World) :
  heap (snd (search q limit st)) = heap st /\
  observed (snd (search q limit st)) = observed st.
Proof.
  unfold FirecrawlClient_search.
  destruct api_key as [[|c k]|]; try done. apply lift_state.
Qed.

Lemma plan_state q n l (st : state World) :
  heap (snd (plan q n l st)) = heap st /\
  observed (snd (plan q n l st)) = observed st.
Proof.
  unfold generate_serp_queries, bind.
  pose proof (lift_state (complete (serp_prompt q n l)) st) as H.
  destruct (lift _ st) as [[a|e|] st1]; done.
Qed.

Lemma process_state q res n m (st : state World) :
  heap (snd (process q res n m st)) = heap st /\
  observed (snd (process q res n m st)) = observed st.
Proof.
  unfold process_serp_result, bind.
  pose proof (lift_state (complete (result_prompt q res n m)) st) as H.
  destruct (lift _ st) as [[a|e|] st1]; done.
Qed.

(** *** [report] changes one object and tells the observer *)

Lemma setattr_completed_totals p v :
  let p' := fold_left setattr [SetCompletedQueries v] p in
  total_breadth p' = total_breadth p /\ total_depth p' = total_depth p /\
  completed_queries p' = v.
Proof. done. Qed.

Lemma setattr_plan_totals p n q :
  let p' := fold_left setattr [SetTotalQueries n; SetCurrentQuery q] p in
  total_breadth p' = total_breadth p /\ total_depth p' = total_depth p /\
  completed_queries p' = completed_queries p /\ total_queries p' = n.
Proof. done. Qed.

(** *** Composing effects *)

Lemma loop_effect_refl r b d (st : state World) : loop_effect r b d st st.
Proof.
  intros Hr. split_effect.
  - done.
  - done.
  - intros p Hp. exists p. repeat split; [done|lia].
  - intros p Hp _ _. exists []. by rewrite app_nil_r.
  - intros i p Hp Hi. apply lookup_lt_Some in Hp. lia.
Qed.

Lemma loop_effect_world r b d (st st' : state World) :
  heap st' = heap st -> observed st' = observed st ->
  loop_effect r b d st st'.
Proof.
  intros Hh Ho Hr. destruct (loop_effect_refl r b d st Hr) as (?&?&?&?&?).
  rewrite Hh, Ho. done.
Qed.

Lemma loop_effect_trans r b d (st1 st2 st3 : state World) :
  loop_effect r b d st1 st2 -> loop_effect r b d st2 st3 ->
  loop_effect r b d st1 st3.
Proof.
  intros H12 H23 Hr.
  destruct (H12 Hr) as (Hlen1 & Hold1 & Hown1 & Hlog1 & Hnew1).
  destruct H23 as (Hlen2 & Hold2 & Hown2 & Hlog2 & Hnew2); [lia|].
  split_effect.
  - lia.
  - auto.
  - intros p Hp. destruct (Hown1 p Hp) as (p1 & Hp1 & Hb1 & Hd1 & Hc1).
    destruct (Hown2 p1 Hp1) as (p2 & Hp2 & Hb2 & Hd2 & Hc2).
    exists p2. repeat split; [done|congruence|congruence|lia].
  - intros p Hp Hb Hd.
    destruct (Hown1 p Hp) as (p1 & Hp1 & Hb1 & Hd1 & Hc1).
    destruct (Hlog1 p Hp Hb Hd) as (log1 & E1 & Hf1).
    destruct (Hlog2 p1 Hp1) as (log2 & E2 & Hf2); [congruence..|].
    exists (log1 ++ log2). split; [by rewrite E2, E1, app_assoc|].
    by apply Forall_app.
  - intros i p Hp Hi.
    destruct (decide (length (heap st2) <= i)%nat) as [Hge|Hlt]; [auto|].
    destruct (lookup_lt_is_Some_2 (heap st2) i) as [p2 Hp2]; [lia|].
    assert (i <> r) as Hne by lia.
    pose proof (Hold2 i p2 Hne Hp2) as Hp3.
    assert (p2 = p) as -> by congruence. auto.
Qed.

Lemma report_loop_effect on_progress r b d update (st : state World) :
  (forall p, total_breadth (fold_left setattr (update p) p) = total_breadth p /\
             total_depth (fold_left setattr (update p) p) = total_depth p /\
             completed_queries p
               <= completed_queries (fold_left setattr (update p) p)) ->
  loop_effect r b d st (snd (report on_progress r update st)).
Proof.
  intros Hupd Hr. unfold report. simpl. split_effect.
  - by rewrite length_alter.
  - intros i p Hne Hp. by rewrite list_lookup_alter_ne.
  - intros p Hp. rewrite list_lookup_alter_eq, Hp. simpl.
    eexists. split; [done|]. apply Hupd.
  - intros p Hp Hb Hd. rewrite list_lookup_alter_eq, Hp. simpl.
    destruct on_progress.
    + eexists. split; [done|]. apply Forall_singleton. left.
      destruct (Hupd p) as (Hb' & Hd' & _).
      repeat split; simpl; congruence.
    + exists []. by rewrite app_nil_r.
  - intros i p Hp Hi. apply lookup_lt_Some in Hp.
    rewrite length_alter in Hp. lia.
Qed.

(** A nested call, seen from the loop of its caller. *)
Lemma call_loop_effect r b d (st st' : state World) :
  0 < new_depth d ->
  call_effect (new_breadth b) (new_depth d) st st' ->
  loop_effect r b d st st'.
Proof.
  intros Hd (Hold & (log & Hlog & Hf) & Hnew) Hr.
  assert (forall e,
    own_entry (length (heap st)) (new_breadth b) (new_depth d) e \/
    nested_entry (length (heap st)) (new_breadth b) (new_depth d) e ->
    nested_entry r b d e) as Hlift.
  { intros e [(He & Hb' & Hd')|(He & i & Hi & Hlev & Hpos)].
    - split; [lia|]. exists 1%nat. split; [done|]. simpl.
      split; [congruence|lia].
    - split; [lia|]. exists (S i). split; [lia|]. by simpl. }
  split_effect.
  - destruct (decide (length (heap st) <= length (heap st'))%nat); [done|].
    destruct (lookup_lt_is_Some_2 (heap st) (length (heap st'))) as [p Hp];
      [lia|]. apply Hold, lookup_lt_Some in Hp. lia.
  - auto.
  - intros p Hp. exists p. repeat split; [auto|lia].
  - intros p Hp _ _. exists log. split; [done|].
    eapply Forall_impl; [exact Hf|]. intros e He. right. auto.
  - intros i p Hp Hi. apply Hlift. auto.
Qed.

(** *** The loop and the call *)

Section Loop.

Variable rec : recursion.
Hypothesis rec_effect :
  forall q b d L V st, call_effect b d st (snd (rec q b d L V st)).

Lemma found_loop_effect on_progress r b d L V results q res st :
  loop_effect r b d st
    (snd (found rec on_progress r b d L V results q res st)).
Proof.
  unfold research_found, bind.
  pose proof (process_state (Research.query q) res 3 (Z.max 1 (b / 2)) st)
    as [Hh Ho].
  destruct (process _ _ _ _ st) as [[[nl fu]|e|] st1]; cbn in *;
    try by apply loop_effect_world.
  apply loop_effect_trans with st1; [by apply loop_effect_world|].
  destruct (Z.gtb_spec (new_depth d) 0) as [Hd|Hd].
  - pose proof (rec_effect (next_query q fu) (new_breadth b) (new_depth d)
                  (L ++ nl) (V ++ List.filter Py.truthy (map url res)) st1)
      as Hcall.
    apply call_loop_effect with (r := r) in Hcall; [|lia].
    destruct (rec _ _ _ _ _ st1) as [[sub|e|] st2]; cbn in *; try done.
    apply loop_effect_trans with st2; [done|].
    pose proof (report_loop_effect on_progress r b d
                  (fun p => [SetCompletedQueries (completed_queries p + 1)])
                  st2) as Hrep.
    destruct (report _ _ _ st2) as [[[]|e'|] st3]; cbn in *;
      apply Hrep; intros p; simpl; lia.
  - pose proof (report_loop_effect on_progress r b d
                  (fun p => [SetCompletedQueries (completed_queries p + 1)])
                  st1) as Hrep.
    unfold ret at 1. cbn.
    destruct (report _ _ _ st1) as [[[]|e'|] st3]; cbn in *;
      apply Hrep; intros p; simpl; lia.
Qed.

Lemma step_loop_effect on_progress r b d L V results q st :
  loop_effect r b d st (snd (step rec on_progress r b d L V results q st)).
Proof.
  unfold research_step.
  pose proof (search_state (Research.query q) 5 st) as [Hh Ho].
  destruct (search _ _ st) as [[res|e|] st1]; cbn in *;
    try by apply loop_effect_world.
  apply loop_effect_trans with st1; [by apply loop_effect_world|].
  apply found_loop_effect.
Qed.

Lemma loop_loop_effect on_progress r b d L V qs results st :
  loop_effect r b d st (snd (loop rec on_progress r b d L V qs results st)).
Proof.
  revert results st. induction qs as [|q qs IH]; intros results st; simpl.
  - apply loop_effect_refl.
  - unfold bind.
    pose proof (step_loop_effect on_progress r b d L V results q st) as Hs.
    destruct (step _ _ _ _ _ _ _ _ _ st) as [[results1|e|] st1];
      cbn in *; try done.
    apply loop_effect_trans with st1; [done|apply IH].
Qed.

Lemma body_call_effect on_progress q b d L V st :
  call_effect b d st (snd (body rec on_progress q b d L V st)).
Proof.
  unfold research_body, bind, new_progress. cbn.
  set (r := length (heap st)).
  set (p0 := mkResearchProgress d d b b None 0 0).
  set (st0 := mkState (world st) (heap st ++ [p0]) (observed st)).
  assert (r < length (heap st0))%nat as Hr
    by (subst st0 r; simpl; rewrite length_app; simpl; lia).
  assert (heap st0 !! r = Some p0) as Hp0
    by (subst st0 r; simpl; by rewrite lookup_app_r, Nat.sub_diag by lia).
  assert (forall st', loop_effect r b d st0 st' -> call_effect b d st st')
    as Hfinish.
  { intros st' Heff. destruct (Heff Hr) as (Hlen & Hold & Hown & Hlog & Hnew).
    destruct (Hown p0 Hp0) as (p' & Hp' & Hb & Hd & _).
    destruct (Hlog p0 Hp0) as (log & Hobs & Hf); [done..|].
    split; [|split].
    - intros i p Hp. apply Hold.
      + apply lookup_lt_Some in Hp. subst r. lia.
      + subst st0. simpl. by apply lookup_app_l_Some.
    - exists log. done.
    - intros i p Hp Hi. fold r in Hi |- *.
      destruct (decide (i = r)) as [->|Hne].
      + left. assert (p = p') as -> by congruence. done.
      + right. apply Hnew; [done|].
        subst st0. simpl. rewrite length_app. simpl. fold r. lia. }
  pose proof (plan_state q b L st0) as [Hh Ho].
  destruct (plan q b L st0) as [[qs|e|] st1]; cbn in *;
    try (apply Hfinish; by apply loop_effect_world).
  match goal with
  | |- context [report on_progress r ?u st1] =>
      pose proof (report_loop_effect on_progress r b d u st1) as Hrep;
      destruct (report on_progress r u st1) as [[[]|e|] st2]
  end; cbn in *.
  all: assert (loop_effect r b d st0 st2) as H02
    by (apply loop_effect_trans with st1; [by apply loop_effect_world|];
        apply Hrep; intros p; cbn; lia).
  all: try by apply Hfinish.
  pose proof (loop_loop_effect on_progress r b d L V qs [] st2) as Hloop.
  destruct (loop _ _ _ _ _ _ _ _ _ st2) as [[results|e|] st3]; cbn in *;
    apply Hfinish; by apply loop_effect_trans with st2.
Qed.

End Loop.

Lemma deep_research_call_effect fuel on_progress q b d L V st :
  call_effect b d st (snd (dr fuel on_progress q b d L V st)).
Proof.
  revert q b d L V st. induction fuel as [|fuel IH]; intros q b d L V st.
  - simpl. split; [done|]. split.
    + exists []. by rewrite app_nil_r.
    + intros i p Hp Hi. apply lookup_lt_Some in Hp. lia.
  - simpl. apply body_call_effect. apply IH.
Qed.

(** *** Breadth and depth at each level *)

Lemma shiftr_new_breadth b (j : nat) :
  Z.max 1 (Z.shiftr (new_breadth b) (Z.of_nat j))
  = Z.max 1 (Z.shiftr b (Z.of_nat (S j))).
Proof.
  unfold new_breadth. rewrite !Z.shiftr_div_pow2 by lia.
  rewrite Nat2Z.inj_succ, Z.pow_succ_r by lia.
  assert (0 < 2 ^ Z.of_nat j) as Hpow by (apply Z.pow_pos_nonneg; lia).
  rewrite <- Z.div_div by lia.
  destruct (Z.le_gt_cases 1 (b / 2)) as [Hge|Hlt].
  - by rewrite (Z.max_r 1 (b / 2)) by lia.
  - rewrite (Z.max_l 1 (b / 2)) by lia.
    assert (1 / 2 ^ Z.of_nat j <= 1)
      by (apply Z.div_le_upper_bound; lia).
    assert (b / 2 / 2 ^ Z.of_nat j <= 0).
    { transitivity (0 / 2 ^ Z.of_nat j); [apply Z.div_le_mono; lia|].
      by rewrite Z.div_0_l by lia. }
    lia.
Qed.

Lemma level_params_closed (i : nat) b d :
  (1 <= i)%nat \/ 1 <= b ->
  level_params i b d = (Z.max 1 (Z.shiftr b (Z.of_nat i)), d - Z.of_nat i).
Proof.
  revert b d. induction i as [|j IH]; intros b d Hi.
  - simpl. destruct Hi as [Hi|Hb]; [lia|].
    rewrite Z.shiftr_0_r. f_equal; lia.
  - cbn [level_params]. rewrite IH by (right; unfold new_breadth; lia).
    rewrite shiftr_new_breadth. unfold new_depth. f_equal. lia.
Qed.

(** At the root the breadth is the one given, also when it is below 1. *)
Lemma level_params_root b d : level_params 0 b d = (b, d).
Proof. reflexivity. Qed.

Lemma nested_entry_closed r b d e :
  nested_entry r b d e ->
  (r < fst e)%nat /\
  exists i : nat,
    (1 <= i)%nat /\
    total_depth (snd e) = d - Z.of_nat i /\
    total_breadth (snd e) = Z.max 1 (Z.shiftr b (Z.of_nat i)) /\
    0 < total_depth (snd e).
Proof.
  intros (Hr & i & Hi & Hlev & Hpos). split; [done|].
  exists i. rewrite level_params_closed in Hlev by (by left).
  injection Hlev as Hb Hd. repeat split; [done|congruence..|done].
Qed.

(** *** The object of a call *)

Lemma same_but_completed_refl p : same_but_completed p p.
Proof. by repeat split. Qed.

Lemma same_but_completed_trans p1 p2 p3 :
  same_but_completed p1 p2 -> same_but_completed p2 p3 ->
  same_but_completed p1 p3.
Proof.
  intros (?&?&?&?&?&?) (?&?&?&?&?&?). repeat split; congruence.
Qed.

(** The body of the loop after a successful search, step by step. *)
Lemma found_unfold (rec : recursion) on_progress r b d L V results q res
    (st : state World) :
  found rec on_progress r b d L V results q res st
  = match process (Research.query q) res 3 (Z.max 1 (b / 2)) st with
    | (Ok (nl, fu), st1) =>
        if new_depth d >? 0 then
          match rec (next_query q fu) (new_breadth b) (new_depth d) (L ++ nl)
                  (V ++ List.filter Py.truthy (map url res)) st1 with
          | (Ok sub, st2) => (Ok (results ++ [sub]), counted on_progress r st2)
          | (Raise e, st2) => (Raise e, st2)
          | (NoFuel, st2) => (NoFuel, st2)
          end
        else
          (Ok (results
               ++ [mkResearchResult (L ++ nl)
                     (V ++ List.filter Py.truthy (map url res))]),
           counted on_progress r st1)
    | (Raise e, st1) => (Raise e, st1)
    | (NoFuel, st1) => (NoFuel, st1)
    end.
Proof.
  unfold research_found, bind, counted.
  destruct (process _ _ _ _ st) as [[[nl fu]|e|] st1]; [|done..].
  destruct (new_depth d >? 0); [|done].
  by destruct (rec _ _ _ _ _ st1) as [[sub|e|] st2].
Qed.

Lemma counted_keeps_fields on_progress r (st : state World) p :
  heap st !! r = Some p ->
  exists p',
    heap (counted on_progress r st) !! r = Some p' /\
    same_but_completed p p'.
Proof.
  intros Hp. unfold counted, report. cbn.
  rewrite list_lookup_alter_eq, Hp. cbn. eexists. split; [done|].
  by repeat split.
Qed.

Section KeepsFields.

Variable rec : recursion.
Hypothesis rec_frame :
  forall q b d L V (st : state World) i p,
    heap st !! i = Some p -> heap (snd (rec q b d L V st)) !! i = Some p.

Lemma found_keeps_fields on_progress r b d L V results q res
    (st : state World) p :
  heap st !! r = Some p ->
  exists p',
    heap (snd (found rec on_progress r b d L V results q res st)) !! r
      = Some p' /\
    same_but_completed p p'.
Proof.
  intros Hp. rewrite found_unfold.
  pose proof (process_state (Research.query q) res 3 (Z.max 1 (b / 2)) st)
    as [Hh _].
  destruct (process _ _ _ _ st) as [[[nl fu]|e|] st1]; simpl in Hh;
    rewrite <- Hh in Hp.
  2, 3: exists p; split; [done|apply same_but_completed_refl].
  destruct (new_depth d >? 0).
  - pose proof (rec_frame (next_query q fu) (new_breadth b) (new_depth d)
                  (L ++ nl) (V ++ List.filter Py.truthy (map url res))
                  st1 r p Hp) as Hp2.
    destruct (rec _ _ _ _ _ st1) as [[sub|e|] st2]; cbn [snd] in Hp2 |- *.
    + by apply counted_keeps_fields.
    + exists p. split; [done|apply same_but_completed_refl].
    + exists p. split; [done|apply same_but_completed_refl].
  - cbn [snd]. by apply counted_keeps_fields.
Qed.

Lemma loop_keeps_fields on_progress r b d L V qs results (st : state World)
    p :
  heap st !! r = Some p ->
  exists p',
    heap (snd (loop rec on_progress r b d L V qs results st)) !! r = Some p' /\
    same_but_completed p p'.
Proof.
  revert results st p. induction qs as [|q qs IH]; intros results st p Hp.
  - exists p. split; [done|apply same_but_completed_refl].
  - cbn [research_loop]. unfold bind at 1, research_step.
    pose proof (search_state (Research.query q) 5 st) as [Hh _].
    destruct (search _ _ st) as [[res|e|] st0]; simpl in Hh;
      rewrite <- Hh in Hp.
    + destruct (found_keeps_fields on_progress r b d L V results q res st0 p
                  Hp) as (p1 & Hp1 & Hsame1).
      destruct (found rec _ _ _ _ _ _ _ _ _ st0) as [[results1|e|] st1];
        simpl in Hp1 |- *; [|by exists p1..].
      destruct (IH results1 st1 p1 Hp1) as (p' & Hp' & Hsame).
      exists p'. split; [done|]. by eapply same_but_completed_trans.
    + apply IH. done.
    + exists p. split; [done|apply same_but_completed_refl].
Qed.

Lemma body_creates on_progress q b d L V (st : state World) :
  exists p,
    heap (snd (body rec on_progress q b d L V st)) !! length (heap st)
      = Some p /\
    current_depth p = d /\ total_depth p = d /\
    current_breadth p = b /\ total_breadth p = b.
Proof.
  unfold research_body, bind, new_progress. cbn.
  set (p0 := mkResearchProgress d d b b None 0 0).
  set (st0 := mkState (world st) (heap st ++ [p0]) (observed st)).
  assert (heap st0 !! length (heap st) = Some p0) as Hp0
    by (subst st0; simpl; by rewrite lookup_app_r, Nat.sub_diag by lia).
  pose proof (plan_state q b L st0) as [Hh _].
  destruct (plan q b L st0) as [[qs|e|] st1]; cbn [snd] in Hh;
    rewrite <- Hh in Hp0; [|by exists p0..].
  unfold report at 1. cbn -[research_loop].
  match goal with
  | |- context [loop rec on_progress ?r0 b d L V qs [] ?s] =>
      destruct (loop_keeps_fields on_progress r0 b d L V qs [] s
                  (fold_left setattr
                     [SetTotalQueries (Z.of_nat (length qs));
                      SetCurrentQuery
                        match qs with
                        | q0 :: _ => Some (Research.query q0)
                        | [] => None
                        end] p0))
        as (p & Hp & Hd1 & Hd2 & Hb1 & Hb2 & _);
      [by cbn; rewrite list_lookup_alter_eq, Hp0|];
      destruct (loop rec on_progress r0 b d L V qs [] s)
        as [[results|e|] st2]
  end; by exists p.
Qed.

End KeepsFields.

Lemma heap_frame_app (h h' : list ResearchProgress) :
  (forall i p, h !! i = Some p -> h' !! i = Some p) ->
  exists more, h' = h ++ more.
Proof.
  intros Hold. exists (drop (length h) h').
  rewrite <- (take_drop (length h) h') at 1. f_equal.
  apply list_eq. intros i.
  destruct (decide (i < length h)%nat) as [Hlt|Hge].
  - rewrite lookup_take_lt by done.
    destruct (lookup_lt_is_Some_2 h i Hlt) as [p Hp].
    by rewrite Hp, (Hold i p Hp).
  - rewrite lookup_take_ge by lia. symmetry. apply lookup_ge_None. lia.
Qed.

Lemma call_creates fuel on_progress q b d L V (st : state World) :
  exists p rest,
    heap (snd (dr (S fuel) on_progress q b d L V st)) = heap st ++ p :: rest /\
    current_depth p = d /\ total_depth p = d /\
    current_breadth p = b /\ total_breadth p = b /\
    Forall
      (fun p' =>
         exists i : nat,
           (1 <= i)%nat /\
           total_depth p' = d - Z.of_nat i /\
           total_breadth p' = Z.max 1 (Z.shiftr b (Z.of_nat i)) /\
           0 < total_depth p')
      rest.
Proof.
  set (st' := snd (dr (S fuel) on_progress q b d L V st)).
  destruct (deep_research_call_effect (S fuel) on_progress q b d L V st)
    as (Hold & _ & Hnew).
  fold st' in Hold, Hnew.
  destruct (body_creates (dr fuel on_progress)
              (fun q b d L V st i p =>
                 proj1 (deep_research_call_effect fuel on_progress q b d L
                          V st) i p)
              on_progress q b d L V st)
    as (p & Hp & Hd1 & Hd2 & Hb1 & Hb2).
  change (heap st' !! length (heap st) = Some p) in Hp.
  destruct (heap_frame_app (heap st) (heap st') Hold) as [more Hmore].
  rewrite Hmore, lookup_app_r, Nat.sub_diag in Hp by lia.
  destruct more as [|p1 rest]; [discriminate|]. injection Hp as ->.
  exists p, rest. split; [done|]. repeat (split; [done|]).
  apply Forall_lookup. intros k p' Hk.
  destruct (Hnew (length (heap st) + S k)%nat p') as [(Hr & _)|He].
  - rewrite Hmore, lookup_app_r by lia.
    replace (length (heap st) + S k - length (heap st))%nat with (S k)
      by lia. done.
  - lia.
  - simpl in Hr. lia.
  - apply nested_entry_closed in He as (_ & i & Hi). by exists i.
Qed.

(** C3 (as amended). Every call, the root and each recursive descendant,
    creates a progress object of its own, initialised from its own depth
    and breadth: after the call the store holds the objects that existed
    before it, unchanged, then the object of this call, which still carries
    the depth and the breadth of this call as current and as total values,
    then the objects created by the calls below it, each carrying
    [depth - i] and [max(1, breadth >> i)] for its level [i >= 1]. So a
    nested call never updates the object its caller observes; what the
    calls share is the observer. A snapshot delivered by the call itself is
    of the object created by this call and carries this call's depth and
    breadth as totals; a snapshot delivered by a descendant [i] levels below
    is of a later object and carries [depth - i] and
    [max(1, breadth >> i)]. *)
Theorem progress_object_per_call fuel on_progress q b d L V
    (st : state World) :
  let st' := snd (dr (S fuel) on_progress q b d L V st) in
  (exists p rest,
     heap st' = heap st ++ p :: rest /\
     current_depth p = d /\ total_depth p = d /\
     current_breadth p = b /\ total_breadth p = b /\
     Forall
       (fun p' =>
          exists i : nat,
            (1 <= i)%nat /\
            total_depth p' = d - Z.of_nat i /\
            total_breadth p' = Z.max 1 (Z.shiftr b (Z.of_nat i)) /\
            0 < total_depth p')
       rest) /\
  (forall r p, heap st !! r = Some p -> heap st' !! r = Some p) /\
  exists log,
    observed st' = observed st ++ log /\
    Forall
      (fun e =>
         (fst e = length (heap st) /\
          total_depth (snd e) = d /\ total_breadth (snd e) = b) \/
         ((length (heap st) < fst e)%nat /\
          exists i : nat,
            (1 <= i)%nat /\
            total_depth (snd e) = d - Z.of_nat i /\
            total_breadth (snd e) = Z.max 1 (Z.shiftr b (Z.of_nat i)) /\
            0 < total_depth (snd e)))
      log.
Proof.
  intros st'.
  destruct (deep_research_call_effect (S fuel) on_progress q b d L V st)
    as (Hold & (log & Hlog & Hf) & _).
  split; [apply call_creates|]. split; [exact Hold|].
  exists log. split; [exact Hlog|].
  eapply Forall_impl; [exact Hf|]. intros e [(Hr & Hb & Hd)|He].
  - left. done.
  - right. by apply nested_entry_closed.
Qed.

(** *** Counting the processed queries *)

Lemma report_completed on_progress r (st : state World) p :
  heap st !! r = Some p ->
  exists st' p',
    report on_progress r
      (fun p => [SetCompletedQueries (completed_queries p + 1)]) st
      = (Ok tt, st') /\
    heap st' !! r = Some p' /\
    completed_queries p' = completed_queries p + 1.
Proof.
  intros Hp. unfold report. eexists _, _. split; [reflexivity|]. cbn.
  rewrite list_lookup_alter_eq, Hp. done.
Qed.

Section Counting.

Variable rec : recursion.
Hypothesis rec_effect :
  forall q b d L V st, call_effect b d st (snd (rec q b d L V st)).

Lemma found_counts on_progress r b d L V results q res st results' st' p :
  heap st !! r = Some p ->
  found rec on_progress r b d L V results q res st = (Ok results', st') ->
  exists p',
    heap st' !! r = Some p' /\
    completed_queries p' = completed_queries p + 1 /\
    length results' = S (length results).
Proof.
  intros Hp. unfold research_found, bind.
  pose proof (process_state (Research.query q) res 3 (Z.max 1 (b / 2)) st)
    as [Hh _].
  destruct (process _ _ _ _ st) as [[[nl fu]|e|] st1]; cbn in *;
    try discriminate.
  rewrite <- Hh in Hp.
  destruct (new_depth d >? 0).
  - pose proof (rec_effect (next_query q fu) (new_breadth b) (new_depth d)
                  (L ++ nl) (V ++ List.filter Py.truthy (map url res)) st1)
      as (Hold & _).
    destruct (rec _ _ _ _ _ st1) as [[sub|e|] st2]; cbn in *;
      try discriminate.
    apply Hold in Hp.
    destruct (report_completed on_progress r st2 p Hp)
      as (st3 & p' & -> & Hp' & Hc).
    cbn. intros [= <- <-]. exists p'. rewrite length_app. simpl.
    repeat split; [done..|lia].
  - unfold ret at 1. cbn.
    destruct (report_completed on_progress r st1 p Hp)
      as (st3 & p' & -> & Hp' & Hc).
    cbn. intros [= <- <-]. exists p'. rewrite length_app. simpl.
    repeat split; [done..|lia].
Qed.

Lemma step_counts on_progress r b d L V results q st results' st' p :
  heap st !! r = Some p ->
  step rec on_progress r b d L V results q st = (Ok results', st') ->
  exists p',
    heap st' !! r = Some p' /\
    match fst (search (Research.query q) 5 st) with
    | Ok _ =>
        completed_queries p' = completed_queries p + 1 /\
        length results' = S (length results)
    | _ => p' = p /\ results' = results
    end.
Proof.
  intros Hp. unfold research_step.
  pose proof (search_state (Research.query q) 5 st) as [Hh _].
  destruct (search _ _ st) as [[res|e|] st1]; cbn in *.
  - rewrite <- Hh in Hp. intros Hf.
    destruct (found_counts _ _ _ _ _ _ _ _ _ _ _ _ _ Hp Hf) as (p' & ?).
    by exists p'.
  - intros [= <- <-]. exists p. by rewrite Hh.
  - discriminate.
Qed.

Lemma loop_counts on_progress r b d L V qs results st results' st' p :
  heap st !! r = Some p ->
  loop rec on_progress r b d L V qs results st = (Ok results', st') ->
  exists p',
    heap st' !! r = Some p' /\
    completed_queries p'
      = completed_queries p
        + (Z.of_nat (length results') - Z.of_nat (length results)) /\
    (length results <= length results' <= length results + length qs)%nat.
Proof.
  revert results st p. induction qs as [|q qs IH]; intros results st p Hp.
  - cbn. intros [= <- <-]. exists p. repeat split; [done|lia..].
  - cbn. unfold bind.
    destruct (step _ _ _ _ _ _ _ _ _ st) as [[results1|e|] st1] eqn:Hs;
      try discriminate.
    intros Hl.
    destruct (step_counts _ _ _ _ _ _ _ _ _ _ _ _ Hp Hs) as (p1 & Hp1 & Hc1).
    destruct (IH _ _ _ Hp1 Hl) as (p' & Hp' & Hc & Hlen).
    exists p'. split; [done|].
    destruct (fst (search _ _ st)) as [res|e|].
    + destruct Hc1 as [Hc1 Hl1]. simpl. lia.
    + destruct Hc1 as [-> ->]. simpl. lia.
    + destruct Hc1 as [-> ->]. simpl. lia.
Qed.

End Counting.

(** C1 (as amended). In the loop of a call, the [completed_queries] counter
    of the object created by that call increases by exactly one for a query
    whose search succeeded, once its branch is done, and is left as it was
    when the query is skipped because the search raised. The counter never
    decreases, and after the loop over [n] planned queries it has grown by
    the number of results collected, the number of queries whose search
    succeeded, which is at most [n]. *)
Theorem completed_queries_counts_successes fuel on_progress r b d L V :
  (forall q results (st : state World) results' st' p,
     heap st !! r = Some p ->
     step (dr fuel on_progress) on_progress r b d L V results q st
       = (Ok results', st') ->
     exists p',
       heap st' !! r = Some p' /\
       match fst (search (Research.query q) 5 st) with
       | Ok _ =>
           completed_queries p' = completed_queries p + 1 /\
           length results' = S (length results)
       | _ => completed_queries p' = completed_queries p /\ results' = results
       end) /\
  (forall qs results (st : state World) results' st' p,
     heap st !! r = Some p ->
     loop (dr fuel on_progress) on_progress r b d L V qs results st
       = (Ok results', st') ->
     exists p',
       heap st' !! r = Some p' /\
       completed_queries p'
         = completed_queries p
           + (Z.of_nat (length results') - Z.of_nat (length results)) /\
       completed_queries p <= completed_queries p'
         <= completed_queries p + Z.of_nat (length qs)).
Proof.
  split.
  - intros q results st results' st' p Hp Hs.
    destruct (step_counts (dr fuel on_progress)
                (deep_research_call_effect fuel on_progress)
                _ _ _ _ _ _ _ _ _ _ _ _ Hp Hs) as (p' & Hp' & Hc).
    exists p'. split; [done|].
    destruct (fst (search _ _ st)); [done|..]; by destruct Hc as [-> ->].
  - intros qs results st results' st' p Hp Hl.
    destruct (loop_counts (dr fuel on_progress)
                (deep_research_call_effect fuel on_progress)
                _ _ _ _ _ _ _ _ _ _ _ _ Hp Hl) as (p' & Hp' & Hc & Hlen).
    exists p'. repeat split; [done|done|lia..].
Qed.

(** *** The result of a call *)

Lemma body_returns_merge rec on_progress q b d L V (st : state World) r st' :
  body rec on_progress q b d L V st = (Ok r, st') ->
  exists qs results st1,
    loop rec on_progress (length (heap st)) b d L V qs [] st1
      = (Ok results, st') /\
    r = merge_results results.
Proof.
  unfold research_body, bind, new_progress. cbn.
  destruct (plan q b L _) as [[qs|e|] st1]; try discriminate.
  destruct (report _ _ _ st1) as [[[]|e|] st2]; try discriminate.
  destruct (loop _ _ _ _ _ _ _ _ _ st2) as [[results|e|] st3] eqn:Hl;
    try discriminate.
  cbn. intros [= <- <-]. by exists qs, results, st2.
Qed.

(** *** The anatomy of a call *)

Lemma plan_unfold q n l (st : state World) text w :
  complete (serp_prompt q n l) (world st) = (Returns text, w) ->
  plan q n l st = (Ok (parse_serp_queries text n), set_world st w).
Proof.
  intros Hc. unfold generate_serp_queries, bind, lift. by rewrite Hc.
Qed.

Lemma plan_raises q n l (st : state World) e w :
  complete (serp_prompt q n l) (world st) = (Raises e, w) ->
  plan q n l st = (Raise e, set_world st w).
Proof.
  intros Hc. unfold generate_serp_queries, bind, lift. by rewrite Hc.
Qed.

Lemma report_planned on_progress b d qs (st : state World) w :
  report on_progress (length (heap st))
    (fun _ => [SetTotalQueries (Z.of_nat (length qs));
               SetCurrentQuery
                 match qs with
                 | q :: _ => Some (Research.query q)
                 | [] => None
                 end])
    (mkState w (heap st ++ [mkResearchProgress d d b b None 0 0])
       (observed st))
  = (Ok tt, planned on_progress b d qs st w).
Proof.
  unfold report, planned. cbn [world heap observed].
  match goal with
  | |- context [alter ?f (length (heap st)) (heap st ++ [?p0])] =>
      assert (alter f (length (heap st)) (heap st ++ [p0])
              = heap st ++ [f p0]) as ->
        by (by rewrite <- (Nat.add_0_r (length (heap st))), alter_app_r)
  end.
  rewrite lookup_app_r, Nat.sub_diag by lia. cbn. by destruct on_progress.
Qed.

(** From the planning on, a call is its loop, started in the [planned]
    state, followed by the merge. *)
Lemma body_planned (rec : recursion) on_progress q b d L V
    (st : state World) text w :
  complete (serp_prompt q b L) (world st) = (Returns text, w) ->
  body rec on_progress q b d L V st
  = bind
      (loop rec on_progress (length (heap st)) b d L V
         (parse_serp_queries text b) [])
      (fun results => ret (merge_results results))
      (planned on_progress b d (parse_serp_queries text b) st w).
Proof.
  intros Hc. unfold research_body, bind at 1 2 3, new_progress.
  rewrite (plan_unfold q b L _ text w) by exact Hc.
  unfold set_world. cbn [world heap observed].
  by rewrite report_planned.
Qed.

Lemma body_returns (rec : recursion) on_progress q b d L V
    (st : state World) r st' :
  body rec on_progress q b d L V st = (Ok r, st') ->
  exists text w results,
    complete (serp_prompt q b L) (world st) = (Returns text, w) /\
    loop rec on_progress (length (heap st)) b d L V
      (parse_serp_queries text b) []
      (planned on_progress b d (parse_serp_queries text b) st w)
    = (Ok results, st') /\
    r = merge_results results.
Proof.
  destruct (complete (serp_prompt q b L) (world st)) as [[text|e] w] eqn:Hc.
  - rewrite (body_planned rec on_progress q b d L V st text w Hc).
    unfold bind.
    destruct (loop _ _ _ _ _ _ _ _ _ _) as [[results|e|] st1] eqn:Hl;
      [|discriminate..].
    cbn. intros [= <- <-]. by exists text, w, results.
  - unfold research_body, bind at 1 2, new_progress.
    rewrite (plan_raises q b L _ e w) by exact Hc. discriminate.
Qed.

Lemma loop_app rec on_progress r b d L V qs1 qs2 results (st : state World) :
  loop rec on_progress r b d L V (qs1 ++ qs2) results st
  = bind (loop rec on_progress r b d L V qs1 results)
      (fun results1 => loop rec on_progress r b d L V qs2 results1) st.
Proof.
  revert results st. induction qs1 as [|q qs1 IH]; intros results st.
  - done.
  - cbn [app research_loop]. unfold bind in *.
    destruct (step _ _ _ _ _ _ _ _ _ st) as [[results1|e|] st1]; [|done..].
    apply IH.
Qed.

Lemma loop_snoc (rec : recursion) on_progress r b d L V qs q results
    (st : state World) :
  loop rec on_progress r b d L V (qs ++ [q]) results st
  = bind (loop rec on_progress r b d L V qs results)
      (fun results1 => step rec on_progress r b d L V results1 q) st.
Proof.
  rewrite loop_app. unfold bind.
  destruct (loop _ _ _ _ _ _ _ _ _ st) as [[results1|e|] st1]; [|done..].
  cbn [research_loop]. unfold bind.
  by destruct (step _ _ _ _ _ _ _ _ _ st1) as [[results2|e|] st2].
Qed.

Lemma found_extends (rec : recursion) on_progress r b d L V results q res
    (st : state World) results' st' :
  found rec on_progress r b d L V results q res st = (Ok results', st') ->
  exists child, results' = results ++ [child].
Proof.
  rewrite found_unfold.
  destruct (process _ _ _ _ st) as [[[nl fu]|e|] st1]; [|discriminate..].
  destruct (new_depth d >? 0).
  - destruct (rec _ _ _ _ _ st1) as [[sub|e|] st2]; [|discriminate..].
    intros [= <- <-]. by eexists.
  - intros [= <- <-]. by eexists.
Qed.

Lemma loop_extends (rec : recursion) on_progress r b d L V qs results
    (st : state World) results' st' :
  loop rec on_progress r b d L V qs results st = (Ok results', st') ->
  exists more, results' = results ++ more.
Proof.
  revert results st. induction qs as [|q qs IH]; intros results st.
  - cbn. intros [= <- <-]. exists []. by rewrite app_nil_r.
  - cbn [research_loop]. unfold bind at 1, research_step.
    destruct (search _ _ st) as [[res|e|] st0]; [|apply IH|discriminate].
    destruct (found rec _ _ _ _ _ _ _ _ _ st0) as [[results1|e|] st1] eqn:Hf;
      [|discriminate..].
    apply found_extends in Hf as [child ->].
    intros [more ->]%IH. exists (child :: more). by rewrite <- app_assoc.
Qed.

(** What a loop that returned did for one of its queries: the queries
    before it left [results_i] and the state [st_i]; then either the search
    raised and nothing else happened, or the search and the extraction
    returned and one child result was appended, that of the nested call
    when [depth - 1 > 0] and the terminal one otherwise, and the completion
    was reported. *)
Lemma loop_query (rec : recursion) on_progress r b d L V before q0 after
    results (st : state World) results' st' :
  loop rec on_progress r b d L V (before ++ q0 :: after) results st
  = (Ok results', st') ->
  exists results_i st_i,
    loop rec on_progress r b d L V before results st = (Ok results_i, st_i) /\
    match search (Research.query q0) 5 st_i with
    | (Ok res, st_s) =>
        exists nl fu st_p child st_c,
          process (Research.query q0) res 3 (Z.max 1 (b / 2)) st_s
          = (Ok (nl, fu), st_p) /\
          (if d - 1 >? 0
           then rec (next_query q0 fu) (Z.max 1 (b / 2)) (d - 1) (L ++ nl)
                  (V ++ List.filter Py.truthy (map url res)) st_p
                = (Ok child, st_c)
           else child = mkResearchResult (L ++ nl)
                          (V ++ List.filter Py.truthy (map url res)) /\
                st_c = st_p) /\
          loop rec on_progress r b d L V (before ++ [q0]) results st
          = (Ok (results_i ++ [child]), counted on_progress r st_c) /\
          exists more, results' = results_i ++ child :: more
    | (Raise e, st_s) =>
        loop rec on_progress r b d L V (before ++ [q0]) results st
        = (Ok results_i, st_s)
    | (NoFuel, _) => False
    end.
Proof.
  rewrite loop_app. unfold bind at 1.
  destruct (loop rec on_progress r b d L V before results st)
    as [[results_i|e|] st_i] eqn:Hb; [|discriminate..].
  intros Hl. exists results_i, st_i. split; [done|].
  rewrite loop_snoc. unfold bind at 1 2. rewrite Hb.
  revert Hl. cbn [research_loop]. unfold bind at 1, research_step.
  destruct (search _ _ st_i) as [[res|e|] st_s]; [|done|discriminate].
  rewrite found_unfold. fold (new_depth d) (new_breadth b).
  destruct (process _ _ _ _ st_s) as [[[nl fu]|e|] st_p]; [|discriminate..].
  destruct (new_depth d >? 0).
  - destruct (rec _ _ _ _ _ st_p) as [[sub|e|] st_c] eqn:Hr;
      [|discriminate..].
    intros [more ->]%loop_extends.
    exists nl, fu, st_p, sub, st_c.
    split; [done|]. split; [exact Hr|]. split; [done|].
    exists more. by rewrite <- app_assoc.
  - intros [more ->]%loop_extends.
    eexists nl, fu, st_p, _, st_p.
    split; [done|]. split; [done|]. split; [done|].
    exists more. by rewrite <- app_assoc.
Qed.


(** *** Failing searches *)

Lemma search_outcome q limit (st : state World) :
  fst (search q limit st) <> NoFuel.
Proof.
  unfold FirecrawlClient_search.
  destruct api_key as [[|c k]|]; try done.
  unfold lift. by destruct (http_search _ _ _) as [[a|e] w].
Qed.

Section Total.

Hypothesis complete_returns :
  forall prompt w, exists text w', complete prompt w = (Returns text, w').

Lemma plan_returns q n l (st : state World) :
  exists qs st', plan q n l st = (Ok qs, st').
Proof.
  unfold generate_serp_queries, bind, lift.
  destruct (complete_returns (serp_prompt q n l) (world st))
    as (text & w & ->).
  cbn. eauto.
Qed.

Lemma process_returns q res n m (st : state World) :
  exists out st', process q res n m st = (Ok out, st').
Proof.
  unfold process_serp_result, bind, lift.
  destruct (complete_returns (result_prompt q res n m) (world st))
    as (text & w & ->).
  cbn. eauto.
Qed.

Lemma loop_returns rec on_progress r b d L V :
  (0 < new_depth d ->
   forall q' b' L' V' st, exists x st',
     rec q' b' (new_depth d) L' V' st = (Ok x, st')) ->
  forall qs results (st : state World),
  exists results' st',
    loop rec on_progress r b d L V qs results st = (Ok results', st').
Proof.
  intros Hrec. induction qs as [|q qs IH]; intros results st.
  - cbn. unfold ret. eauto.
  - cbn [research_loop]. unfold bind at 1.
    assert (exists results1 st1,
      step rec on_progress r b d L V results q st = (Ok results1, st1))
      as (results1 & st1 & ->); [|apply IH].
    unfold research_step.
    pose proof (search_outcome (Research.query q) 5 st) as Hs.
    destruct (search _ _ st) as [[res|e|] st0]; [|eauto|done].
    unfold research_found, bind.
    destruct (process_returns (Research.query q) res 3 (Z.max 1 (b / 2)) st0)
      as ([nl fu] & st1 & ->).
    cbn. destruct (Z.gtb_spec (new_depth d) 0) as [Hd|Hd].
    + destruct (Hrec Hd (next_query q fu) (new_breadth b) (L ++ nl)
                  (V ++ List.filter Py.truthy (map url res)) st1)
        as (x & st2 & ->).
      cbn. unfold report, ret. eauto.
    + cbn. unfold report, ret. eauto.
Qed.

Lemma deep_research_fuel_enough fuel on_progress q b d L V
    (st : state World) :
  (0 < fuel)%nat -> d <= Z.of_nat fuel ->
  exists r st', dr fuel on_progress q b d L V st = (Ok r, st').
Proof.
  revert q b d L V st.
  induction fuel as [|fuel IH]; intros q b d L V st Hpos Hd; [lia|].
  cbn [deep_research_fuel]. unfold research_body, bind, new_progress. cbn.
  match goal with
  | |- context [plan q b L ?s] =>
      destruct (plan_returns q b L s) as (qs & st1 & ->)
  end.
  unfold report at 1. cbn.
  match goal with
  | |- context [loop ?rec on_progress ?r b d L V qs [] ?s] =>
      destruct (loop_returns rec on_progress r b d L V) with (qs := qs)
        (results := @nil ResearchResult) (st := s) as (results & st2 & ->)
  end.
  - intros Hnd q' b' L' V' st0. unfold new_depth in *. apply IH; lia.
  - unfold ret. eauto.
Qed.

End Total.

(** *** The fuel of [deep_research] is never used up *)







(** C6 (as amended). When the search raises for one planned query, the
    loop goes on with the queries after it exactly as if that query had not
    been planned, from the results collected so far, and neither a progress
    object nor the observer sees anything of it. In a call that returned,
    every planned query was reached: for each one either its search raised
    and nothing was added, or its search and the extraction returned and
    it contributed a child result all of whose values are in the returned
    result, namely the lists given to the call followed by what the query
    found when [depth - 1 <= 0], and what the nested call returned when
    [depth - 1 > 0]. As long as the completion service answers, the research
    call returns a result and does not raise, whatever the search service
    does. *)
Theorem search_failure_skips_one_query :
  (forall rec on_progress r b d L V qs1 q qs2 results (st : state World)
          results1 st1 e st2,
     loop rec on_progress r b d L V qs1 results st = (Ok results1, st1) ->
     search (Research.query q) 5 st1 = (Raise e, st2) ->
     loop rec on_progress r b d L V (qs1 ++ q :: qs2) results st
       = loop rec on_progress r b d L V qs2 results1 st2 /\
     heap st2 = heap st1 /\ observed st2 = observed st1) /\
  (forall fuel on_progress q b d L V (st : state World) r st',
     dr (S fuel) on_progress q b d L V st = (Ok r, st') ->
     exists text w,
       complete (serp_prompt q b L) (world st) = (Returns text, w) /\
       forall before q0 after,
         parse_serp_queries text b = before ++ q0 :: after ->
         exists results_i st_i,
           loop (dr fuel on_progress) on_progress (length (heap st)) b d L V
             before []
             (planned on_progress b d (parse_serp_queries text b) st w)
           = (Ok results_i, st_i) /\
           match search (Research.query q0) 5 st_i with
           | (Ok res, st_s) =>
               exists nl fu st_p,
                 process (Research.query q0) res 3 (Z.max 1 (b / 2)) st_s
                 = (Ok (nl, fu), st_p) /\
                 if d - 1 >? 0 then
                   exists sub st_n,
                     dr fuel on_progress (next_query q0 fu)
                       (Z.max 1 (b / 2)) (d - 1) (L ++ nl)
                       (V ++ List.filter Py.truthy (map url res)) st_p
                     = (Ok sub, st_n) /\
                     (forall x, In x (learnings sub) -> In x (learnings r)) /\
                     (forall u, In u (visited_urls sub) ->
                                In u (visited_urls r))
                 else
                   (forall x, In x (L ++ nl) -> In x (learnings r)) /\
                   (forall u,
                      In u (V ++ List.filter Py.truthy (map url res)) ->
                      In u (visited_urls r))
           | (Raise e, st_s) =>
               loop (dr fuel on_progress) on_progress (length (heap st)) b d
                 L V (before ++ [q0]) []
                 (planned on_progress b d (parse_serp_queries text b) st w)
               = (Ok results_i, st_s)
           | (NoFuel, _) => False
           end) /\
  ((forall prompt w, exists text w', complete prompt w = (Returns text, w')) ->
   forall q b d L V on_progress (st : state World),
   exists r st',
     deep_research World complete http_search api_key q b d L V on_progress st
       = (Ok r, st')).
Proof.
  split; [|split].
  - intros rec on_progress r b d L V qs1 q qs2 results st results1 st1 e st2
      Hl Hs.
    pose proof (search_state (Research.query q) 5 st1) as Hst.
    rewrite Hs in Hst. split; [|exact Hst].
    rewrite loop_app. unfold bind at 1. rewrite Hl.
    cbn [research_loop]. unfold bind at 1, research_step. by rewrite Hs.
  - intros fuel on_progress q b d L V st r st'. cbn [deep_research_fuel].
    intros (text & w & results & Hc & Hl & ->)%body_returns.
    exists text, w. split; [exact Hc|].
    intros before q0 after Hq. rewrite Hq in Hl |- *.
    destruct (loop_query _ on_progress _ b d L V before q0 after [] _ _ _ Hl)
      as (results_i & st_i & Hb & Hstep).
    exists results_i, st_i. split; [exact Hb|].
    destruct (search _ _ st_i) as [[res|e|] st_s]; [|exact Hstep..].
    destruct Hstep as (nl & fu & st_p & child & st_c & Hp & Hchild & _
                       & more & ->).
    exists nl, fu, st_p. split; [exact Hp|].
    destruct (merge_results_keeps (results_i ++ child :: more) child)
      as [Hlearn Hurls]; [apply in_app_iff; right; by left|].
    destruct (d - 1 >? 0).
    + by exists child, st_c.
    + destruct Hchild as [-> _]. done.
  - intros Hc q b d L V on_progress st. unfold deep_research.
    apply deep_research_fuel_enough; [done|lia|lia].
Qed.

(** *** The recursive calls of a node *)

Section Extensional.

Variables rec1 rec2 : recursion.
Variables b d : Z.
Hypothesis same_children :
  0 < new_depth d ->
  forall q L V (st : state World),
    rec1 q (new_breadth b) (new_depth d) L V st
    = rec2 q (new_breadth b) (new_depth d) L V st.

Lemma found_ext on_progress r L V results q res (st : state World) :
  found rec1 on_progress r b d L V results q res st
  = found rec2 on_progress r b d L V results q res st.
Proof.
  unfold research_found, bind.
  destruct (process _ _ _ _ st) as [[[nl fu]|e|] st1]; [|done..].
  destruct (Z.gtb_spec (new_depth d) 0) as [Hd|Hd]; [|done].
  by rewrite same_children.
Qed.

Lemma loop_ext on_progress r L V qs results (st : state World) :
  loop rec1 on_progress r b d L V qs results st
  = loop rec2 on_progress r b d L V qs results st.
Proof.
  revert results st. induction qs as [|q qs IH]; intros results st; [done|].
  cbn [research_loop]. unfold bind, research_step.
  destruct (search _ _ st) as [[res|e|] st0]; [|apply IH|done].
  rewrite found_ext.
  destruct (found rec2 _ _ _ _ _ _ _ _ _ st0) as [[results1|e|] st1];
    [apply IH|done..].
Qed.

Lemma body_ext on_progress q L V (st : state World) :
  body rec1 on_progress q b d L V st = body rec2 on_progress q b d L V st.
Proof.
  unfold research_body, bind.
  destruct (new_progress b d st) as [[r|e|] st0]; [|done..].
  destruct (plan q b L st0) as [[qs|e|] st1]; [|done..].
  destruct (report _ _ _ st1) as [[[]|e|] st2]; [|done..].
  by rewrite loop_ext.
Qed.

End Extensional.

Lemma call_effect_levels b d (st st' : state World) idx p :
  call_effect b d st st' ->
  heap st' !! idx = Some p -> (length (heap st) <= idx)%nat ->
  exists i : nat,
    level_params i b d = (total_breadth p, total_depth p) /\
    total_depth p = d - Z.of_nat i /\
    (i = 0%nat \/
     0 < d - Z.of_nat i /\
     total_breadth p = Z.max 1 (Z.shiftr b (Z.of_nat i))).
Proof.
  intros (_ & _ & Hnew) Hp Hidx.
  destruct (Hnew idx p Hp Hidx) as [(_ & Hb & Hd)|He]; simpl in *.
  - exists 0%nat. simpl. repeat split; [congruence|lia|by left].
  - destruct He as (Hr & i & Hi & Hlev & Hpos). simpl in *.
    exists i. split; [done|].
    rewrite level_params_closed in Hlev by (by left).
    injection Hlev as Hb Hd. split; [lia|]. right. split; [lia|done].
Qed.

(** C7. A node with [(breadth, depth)] calls itself only with
    [max(1, breadth // 2)] and [depth - 1], and only when [depth - 1 > 0]:
    its result does not depend on what a recursive call would do with any
    other parameters. In a call that returned, for every planned query whose
    search and extraction returned: when [depth - 1 > 0] the nested call
    with [max(1, breadth // 2)] and [depth - 1], the follow-up query and the
    extended lists was made in the state the extraction left, it created a
    progress object with these two values, and its result is the child
    result appended; when [depth - 1 <= 0] no call was made and no object
    created, and the terminal result made of the extended lists was
    appended; in both cases the completion was then reported. Hence the
    parameters [i] levels below a call with [(breadth_0, depth_0)] are
    [max(1, breadth_0 >> i)] and [depth_0 - i], and every progress object
    created during a call belongs to such a level, with [depth_0 - i > 0]
    below the root. *)
Theorem child_parameters_halve_and_decrement :
  (forall rec1 rec2 on_progress q b d L V (st : state World),
     (0 < d - 1 ->
      forall q' L' V' st0,
        rec1 q' (Z.max 1 (b / 2)) (d - 1) L' V' st0
        = rec2 q' (Z.max 1 (b / 2)) (d - 1) L' V' st0) ->
     body rec1 on_progress q b d L V st
     = body rec2 on_progress q b d L V st) /\
  (forall fuel on_progress q b d L V (st : state World) r st',
     dr (S fuel) on_progress q b d L V st = (Ok r, st') ->
     exists text w results,
       complete (serp_prompt q b L) (world st) = (Returns text, w) /\
       loop (dr fuel on_progress) on_progress (length (heap st)) b d L V
         (parse_serp_queries text b) []
         (planned on_progress b d (parse_serp_queries text b) st w)
       = (Ok results, st') /\
       r = merge_results results /\
       forall before q0 after,
         parse_serp_queries text b = before ++ q0 :: after ->
         exists results_i st_i,
           loop (dr fuel on_progress) on_progress (length (heap st)) b d L V
             before []
             (planned on_progress b d (parse_serp_queries text b) st w)
           = (Ok results_i, st_i) /\
           match search (Research.query q0) 5 st_i with
           | (Ok res, st_s) =>
               exists nl fu st_p,
                 process (Research.query q0) res 3 (Z.max 1 (b / 2)) st_s
                 = (Ok (nl, fu), st_p) /\
                 heap st_p = heap st_i /\
                 if d - 1 >? 0 then
                   exists sub st_n p rest,
                     dr fuel on_progress (next_query q0 fu)
                       (Z.max 1 (b / 2)) (d - 1) (L ++ nl)
                       (V ++ List.filter Py.truthy (map url res)) st_p
                     = (Ok sub, st_n) /\
                     heap st_n = heap st_p ++ p :: rest /\
                     total_breadth p = Z.max 1 (b / 2) /\
                     total_depth p = d - 1 /\
                     loop (dr fuel on_progress) on_progress
                       (length (heap st)) b d L V (before ++ [q0]) []
                       (planned on_progress b d (parse_serp_queries text b)
                          st w)
                     = (Ok (results_i ++ [sub]),
                        counted on_progress (length (heap st)) st_n) /\
                     exists more, results = results_i ++ sub :: more
                 else
                   loop (dr fuel on_progress) on_progress
                     (length (heap st)) b d L V (before ++ [q0]) []
                     (planned on_progress b d (parse_serp_queries text b)
                        st w)
                   = (Ok (results_i
                          ++ [mkResearchResult (L ++ nl)
                                (V ++ List.filter Py.truthy (map url res))]),
                      counted on_progress (length (heap st)) st_p) /\
                   exists more,
                     results
                     = results_i
                       ++ mkResearchResult (L ++ nl)
                            (V ++ List.filter Py.truthy (map url res))
                          :: more
           | (Raise e, st_s) =>
               loop (dr fuel on_progress) on_progress (length (heap st)) b d
                 L V (before ++ [q0]) []
                 (planned on_progress b d (parse_serp_queries text b) st w)
               = (Ok results_i, st_s) /\
               heap st_s = heap st_i
           | (NoFuel, _) => False
           end) /\
  (forall (i : nat) breadth_0 depth_0,
     (1 <= i)%nat \/ 1 <= breadth_0 ->
     level_params i breadth_0 depth_0
     = (Z.max 1 (Z.shiftr breadth_0 (Z.of_nat i)), depth_0 - Z.of_nat i)) /\
  (forall fuel on_progress q breadth_0 depth_0 L V (st : state World) idx p,
     heap (snd (dr fuel on_progress q breadth_0 depth_0 L V st)) !! idx
       = Some p ->
     (length (heap st) <= idx)%nat ->
     exists i : nat,
       level_params i breadth_0 depth_0 = (total_breadth p, total_depth p) /\
       total_depth p = depth_0 - Z.of_nat i /\
       (i = 0%nat \/
        0 < depth_0 - Z.of_nat i /\
        total_breadth p = Z.max 1 (Z.shiftr breadth_0 (Z.of_nat i)))).
Proof.
  split; [|split; [|split]].
  - intros rec1 rec2 on_progress q b d L V st Hsame.
    apply body_ext. exact Hsame.
  - intros fuel on_progress q b d L V st r st'. cbn [deep_research_fuel].
    intros (text & w & results & Hc & Hl & ->)%body_returns.
    exists text, w, results. split; [exact Hc|]. split; [exact Hl|].
    split; [done|].
    intros before q0 after Hq. rewrite Hq in Hl |- *.
    destruct (loop_query _ on_progress _ b d L V before q0 after [] _ _ _ Hl)
      as (results_i & st_i & Hb & Hstep).
    exists results_i, st_i. split; [exact Hb|].
    pose proof (search_state (Research.query q0) 5 st_i) as [Hhs _].
    destruct (search _ _ st_i) as [[res|e|] st_s]; cbn [snd] in Hhs;
      [|by split|exact Hstep].
    destruct Hstep as (nl & fu & st_p & child & st_c & Hp & Hchild & Hsnoc
                       & Hmore).
    pose proof (process_state (Research.query q0) res 3 (Z.max 1 (b / 2))
                  st_s) as [Hhp _].
    rewrite Hp in Hhp. cbn [snd] in Hhp.
    exists nl, fu, st_p. split; [exact Hp|]. split; [congruence|].
    destruct (d - 1 >? 0).
    + destruct fuel as [|fuel]; [discriminate|].
      destruct (call_creates fuel on_progress (next_query q0 fu)
                  (Z.max 1 (b / 2)) (d - 1) (L ++ nl)
                  (V ++ List.filter Py.truthy (map url res)) st_p)
        as (p & rest & Hheap & _ & Hd2 & _ & Hb2 & _).
      rewrite Hchild in Hheap. cbn [snd] in Hheap.
      by exists child, st_c, p, rest.
    + destruct Hchild as [-> ->]. by split.
  - intros i b0 d0. apply level_params_closed.
  - intros fuel on_progress q b0 d0 L V st idx p.
    apply call_effect_levels, deep_research_call_effect.
Qed.

(** *** Barren nodes *)



End ResearchFacts.

(** ** The properties on the stub collaborators *)

Section Runs.

Import Research.

Lemma generate_serp_queries_per_line_witness :
  generate_serp_queries Stub.World Stub.complete "topic" 3 [] Stub.start
  = (Ok [mkSerpQuery "alpha" "alpha"; mkSerpQuery "bad" "bad";
         mkSerpQuery "gamma" "gamma"]%string,
     Stub.start).
Proof.
  refine (proj1 (generate_serp_queries_per_line Stub.World Stub.complete
                   "topic" 3 [] Stub.start Stub.plan_text ""%string _ _)).
  - lia.
  - reflexivity.
Defined.

(** C1, as stated, fails: of four planned queries one is skipped, and the
    counter ends at three. *)
Lemma completed_queries_skips_failures :
  ~ (forall (World : Type) complete http_search api_key fuel on_progress
            r b d L V qs results (st : state World) results' st' p p',
       heap st !! r = Some p ->
       research_loop World complete http_search api_key
         (deep_research_fuel World complete http_search api_key fuel
            on_progress)
         on_progress r b d L V qs results st = (Ok results', st') ->
       heap st' !! r = Some p' ->
       completed_queries p'
       = completed_queries p + Z.of_nat (length qs)).
Proof.
  intros H.
  pose proof
    (fun results' st' p' =>
       H Stub.World Stub.complete Stub.http_search Stub.api_key 1%nat true
         0%nat 4 1 [] [] Stub.queries [] Stub.node results' st'
         (mkResearchProgress 1 1 4 4 None 4 0) p' eq_refl) as H'.
  vm_compute in H'.
  specialize (H' _ _ _ eq_refl eq_refl). discriminate.
Qed.

Lemma completed_queries_counts_successes_witness :
  (exists p',
     heap (snd (research_step Stub.World Stub.complete Stub.http_search
                  Stub.api_key
                  (deep_research_fuel Stub.World Stub.complete
                     Stub.http_search Stub.api_key 1 true)
                  true 0 4 1 [] [] [] (mkSerpQuery "bad" "bad") Stub.node))
       !! 0%nat = Some p' /\
     completed_queries p' = 0) /\
  (exists p',
     heap (snd (research_loop Stub.World Stub.complete Stub.http_search
                  Stub.api_key
                  (deep_research_fuel Stub.World Stub.complete
                     Stub.http_search Stub.api_key 1 true)
                  true 0 4 1 [] [] Stub.queries [] Stub.node)) !! 0%nat
       = Some p' /\
     completed_queries p' = 3).
Proof.
  pose proof (completed_queries_counts_successes Stub.complete
                Stub.http_search Stub.api_key 1 true 0 4 1 [] [])
    as [Hstep Hloop].
  split.
  - destruct (Hstep (mkSerpQuery "bad" "bad") [] Stub.node _ _
                (mkResearchProgress 1 1 4 4 None 4 0) eq_refl
                ltac:(vm_compute; reflexivity))
      as (p' & Hp' & Hc).
    exists p'. split; [exact Hp'|]. vm_compute in Hc. apply Hc.
  - destruct (Hloop Stub.queries [] Stub.node _ _
                (mkResearchProgress 1 1 4 4 None 4 0) eq_refl
                ltac:(vm_compute; reflexivity))
      as (p' & Hp' & Hc & _).
    exists p'. split; [exact Hp'|]. rewrite Hc. reflexivity.
Defined.

(** C3, as stated, fails: with depth 2 and breadth 4 the second snapshot
    the observer receives is of another object than the first and carries
    the totals 1 and 2. *)
Lemma nested_call_reports_its_own_object :
  ~ (forall (World : Type) complete http_search api_key q b d L V
            (st : state World),
       observed st = [] ->
       Forall
         (fun e =>
            fst e = length (heap st) /\
            total_depth (snd e) = d /\ total_breadth (snd e) = b)
         (observed
            (snd (deep_research World complete http_search api_key q b d
                    L V true st)))).
Proof.
  intros H.
  specialize (H Stub.World Stub.complete Stub.http_search Stub.api_key
                "topic"%string 4 2 [] [] Stub.start eq_refl).
  vm_compute in H.
  apply Forall_cons in H as [_ H]. apply Forall_cons in H as [[H _] _].
  discriminate.
Qed.



Lemma stub_complete_returns prompt w :
  exists text w', Stub.complete prompt w = (Returns text, w').
Proof.
  unfold Stub.complete. destruct (Py.startswith prompt "Generate"); eauto.
Qed.

Lemma search_failure_skips_one_query_witness :
  (exists results1 st2,
     research_loop Stub.World Stub.complete Stub.http_search Stub.api_key
       Stub.no_call true 0 4 1 [] [] Stub.queries [] Stub.node
     = research_loop Stub.World Stub.complete Stub.http_search Stub.api_key
         Stub.no_call true 0 4 1 [] []
         [mkSerpQuery "gamma" "gamma"; mkSerpQuery "delta" "delta"]%string
         results1 st2 /\
     length results1 = 1%nat) /\
  (exists r st',
     Stub.run 4 1 = (Ok r, st') /\
     In "about gamma"%string (learnings r) /\
     In "http://gamma"%string (visited_urls r)) /\
  (exists r st', Stub.run 4 2 = (Ok r, st')).
Proof.
  pose proof (search_failure_skips_one_query Stub.complete Stub.http_search
                Stub.api_key) as (Hskip & Hcall & Hreturns).
  split; [|split].
  - eexists _, _. split.
    + refine (proj1 (Hskip Stub.no_call true 0%nat 4 1 [] []
                       [mkSerpQuery "alpha" "alpha"]%string
                       (mkSerpQuery "bad" "bad")
                       [mkSerpQuery "gamma" "gamma";
                        mkSerpQuery "delta" "delta"]%string
                       [] Stub.node _ _ _ _ _ _)).
      * vm_compute. reflexivity.
      * vm_compute. reflexivity.
    + reflexivity.
  - destruct (Hcall 1%nat true "topic"%string 4 1 [] [] Stub.start
                (mkResearchResult
                   ["about alpha"; "about gamma"; "about delta"]%string
                   ["http://alpha"; "http://gamma"; "http://delta"]%string)
                (snd (Stub.run 4 1))
                ltac:(vm_compute; reflexivity))
      as (text & w & Hc & Hq).
    injection Hc as <- <-.
    destruct (Hq [mkSerpQuery "alpha" "alpha"; mkSerpQuery "bad" "bad"]%string
                (mkSerpQuery "gamma" "gamma")
                [mkSerpQuery "delta" "delta"]%string
                ltac:(vm_compute; reflexivity))
      as (results_i & st_i & Hb & Hstep).
    vm_compute in Hb. injection Hb as <- <-.
    destruct Hstep as (nl & fu & st_p & Hp & Hlearn & Hurls).
    vm_compute in Hp. injection Hp as <- <- <-.
    eexists _, _. split; [vm_compute; reflexivity|].
    split; [apply Hlearn|apply Hurls]; left; reflexivity.
  - apply Hreturns. exact stub_complete_returns.
Defined.

(** C6, as stated, fails: with depth 2, the search raises for [bad], the
    query [alpha] is processed and finds [about alpha], but its nested call
    plans nothing and the call returns an empty result. *)
Lemma processed_query_findings_dropped :
  ~ (forall (World : Type) complete http_search api_key fuel on_progress
            q b d L V (st : state World) r st' text w
            qs1 qbad qs2 results1 st1 e st2
            before q0 after results_i st_i res st_s nl fu st_p,
       deep_research_fuel World complete http_search api_key (S fuel)
         on_progress q b d L V st = (Ok r, st') ->
       complete (serp_prompt q b L) (world st) = (Returns text, w) ->
       parse_serp_queries text b = qs1 ++ qbad :: qs2 ->
       research_loop World complete http_search api_key
         (deep_research_fuel World complete http_search api_key fuel
            on_progress)
         on_progress (length (heap st)) b d L V qs1 []
         (planned on_progress b d (parse_serp_queries text b) st w)
       = (Ok results1, st1) ->
       FirecrawlClient_search World http_search api_key (query qbad) 5 st1
       = (Raise e, st2) ->
       parse_serp_queries text b = before ++ q0 :: after ->
       research_loop World complete http_search api_key
         (deep_research_fuel World complete http_search api_key fuel
            on_progress)
         on_progress (length (heap st)) b d L V before []
         (planned on_progress b d (parse_serp_queries text b) st w)
       = (Ok results_i, st_i) ->
       FirecrawlClient_search World http_search api_key (query q0) 5 st_i
       = (Ok res, st_s) ->
       process_serp_result World complete (query q0) res 3
         (Z.max 1 (b / 2)) st_s = (Ok (nl, fu), st_p) ->
       forall x, In x nl -> In x (learnings r)).
Proof.
  intros H.
  apply (H Stub.World Stub.thinning_complete Stub.http_search
           Stub.api_key 2%nat true "topic"%string 2 2 [] [] Stub.start
           (mkResearchResult [] [])
           (snd (Stub.thinning_run 2 2))
           ("alpha" ++ newline ++ "bad" ++ newline ++ "beta")%string
           ""%string
           [mkSerpQuery "alpha" "alpha"] (mkSerpQuery "bad" "bad") []
           [mkResearchResult [] []]
           (snd (research_loop Stub.World Stub.thinning_complete
                   Stub.http_search Stub.api_key
                   (deep_research_fuel Stub.World Stub.thinning_complete
                      Stub.http_search Stub.api_key 2 true)
                   true 0 2 2 [] [] [mkSerpQuery "alpha" "alpha"] []
                   (planned true 2 2
                      [mkSerpQuery "alpha" "alpha"; mkSerpQuery "bad" "bad"]
                      Stub.start ""%string)))
           (ServiceError 500)
           (snd (Stub.thinning_run 2 2))
           [] (mkSerpQuery "alpha" "alpha") [mkSerpQuery "bad" "bad"]
           []
           (planned true 2 2
              [mkSerpQuery "alpha" "alpha"; mkSerpQuery "bad" "bad"]
              Stub.start ""%string)
           [mkSearchResult "http://alpha" "page"]
           (set_world
              (planned true 2 2
                 [mkSerpQuery "alpha" "alpha"; mkSerpQuery "bad" "bad"]
                 Stub.start ""%string)
              "alpha"%string)
           ["about alpha"%string] []
           (set_world
              (planned true 2 2
                 [mkSerpQuery "alpha" "alpha"; mkSerpQuery "bad" "bad"]
                 Stub.start ""%string)
              "alpha"%string)
           ltac:(vm_compute; reflexivity)
           ltac:(reflexivity)
           ltac:(vm_compute; reflexivity)
           ltac:(vm_compute; reflexivity)
           ltac:(vm_compute; reflexivity)
           ltac:(vm_compute; reflexivity)
           ltac:(vm_compute; reflexivity)
           ltac:(vm_compute; reflexivity)
           ltac:(vm_compute; reflexivity)
           "about alpha"%string).
  left. reflexivity.
Qed.

Lemma child_parameters_halve_and_decrement_witness :
  level_params 2 4 3 = (1, 1) /\
  level_params 1 0 3 = (1, 2) /\
  research_body Stub.World Stub.complete Stub.http_search Stub.api_key
    Stub.no_call true "topic" 4 1 [] [] Stub.start
  = Stub.run 4 1 /\
  (exists results sub st_n p rest more,
     research_loop Stub.World Stub.complete Stub.http_search Stub.api_key
       (deep_research_fuel Stub.World Stub.complete Stub.http_search
          Stub.api_key 2 true)
       true 0 4 2 [] [] (parse_serp_queries Stub.plan_text 4) []
       (planned true 4 2 (parse_serp_queries Stub.plan_text 4) Stub.start
          ""%string)
     = (Ok results, snd (Stub.run 4 2)) /\
     fst (Stub.run 4 2) = Ok (merge_results results) /\
     deep_research_fuel Stub.World Stub.complete Stub.http_search
       Stub.api_key 2 true
       (next_query (mkSerpQuery "alpha" "alpha") ["why?"%string]) 2 1
       ["about alpha"%string] ["http://alpha"%string]
       (set_world
          (planned true 4 2 (parse_serp_queries Stub.plan_text 4) Stub.start
             ""%string)
          "alpha"%string)
     = (Ok sub, st_n) /\
     heap st_n
     = [mkResearchProgress 2 2 4 4 (Some "alpha"%string) 4 0] ++ p :: rest /\
     total_breadth p = 2 /\ total_depth p = 1 /\
     research_loop Stub.World Stub.complete Stub.http_search Stub.api_key
       (deep_research_fuel Stub.World Stub.complete Stub.http_search
          Stub.api_key 2 true)
       true 0 4 2 [] [] [mkSerpQuery "alpha" "alpha"] []
       (planned true 4 2 (parse_serp_queries Stub.plan_text 4) Stub.start
          ""%string)
     = (Ok [sub], counted true 0 st_n) /\
     results = sub :: more) /\
  research_loop Stub.World Stub.complete Stub.http_search Stub.api_key
    (deep_research_fuel Stub.World Stub.complete Stub.http_search
       Stub.api_key 1 true)
    true 0 4 1 [] [] [mkSerpQuery "alpha" "alpha"] []
    (planned true 4 1 (parse_serp_queries Stub.plan_text 4) Stub.start
       ""%string)
  = (Ok [mkResearchResult ["about alpha"%string] ["http://alpha"%string]],
     counted true 0
       (set_world
          (planned true 4 1 (parse_serp_queries Stub.plan_text 4) Stub.start
             ""%string)
          "alpha"%string)).
Proof.
  pose proof (child_parameters_halve_and_decrement Stub.complete
                Stub.http_search Stub.api_key)
    as (Hext & Hcall & Hlevel & _).
  split; [|split; [|split; [|split]]].
  - rewrite (Hlevel 2%nat 4 3) by (right; lia). reflexivity.
  - rewrite (Hlevel 1%nat 0 3) by (left; lia). reflexivity.
  - apply Hext. intros Hd. lia.
  - destruct (Hcall 2%nat true "topic"%string 4 2 [] [] Stub.start
                (mkResearchResult
                   ["about alpha"; "about gamma"; "about delta"]%string
                   ["http://alpha"; "http://gamma"; "http://delta"]%string)
                (snd (Stub.run 4 2))
                ltac:(vm_compute; reflexivity))
      as (text & w & results & Hc & Hl & Hr & Hq).
    injection Hc as <- <-.
    destruct (Hq [] (mkSerpQuery "alpha" "alpha")
                [mkSerpQuery "bad" "bad"; mkSerpQuery "gamma" "gamma";
                 mkSerpQuery "delta" "delta"]%string
                ltac:(vm_compute; reflexivity))
      as (results_i & st_i & Hb & Hstep).
    injection Hb as <- <-.
    destruct Hstep as (nl & fu & st_p & Hp & Hheap & sub & st_n & p & rest
                       & Hsub & Hnew & Hb2 & Hd2 & Hloop & more & Hmore).
    vm_compute in Hp. injection Hp as <- <- <-.
    exists results, sub, st_n, p, rest, more.
    split; [exact Hl|]. split; [by rewrite <- Hr; vm_compute|].
    split; [exact Hsub|]. split; [exact Hnew|]. split; [exact Hb2|].
    split; [exact Hd2|]. split; [exact Hloop|exact Hmore].
  - destruct (Hcall 1%nat true "topic"%string 4 1 [] [] Stub.start
                (mkResearchResult
                   ["about alpha"; "about gamma"; "about delta"]%string
                   ["http://alpha"; "http://gamma"; "http://delta"]%string)
                (snd (Stub.run 4 1))
                ltac:(vm_compute; reflexivity))
      as (text & w & results & Hc & _ & _ & Hq).
    injection Hc as <- <-.
    destruct (Hq [] (mkSerpQuery "alpha" "alpha")
                [mkSerpQuery "bad" "bad"; mkSerpQuery "gamma" "gamma";
                 mkSerpQuery "delta" "delta"]%string
                ltac:(vm_compute; reflexivity))
      as (results_i & st_i & Hb & Hstep).
    injection Hb as <- <-.
    destruct Hstep as (nl & fu & st_p & Hp & Hheap & Hloop & _).
    vm_compute in Hp. injection Hp as <- <- <-.
    exact Hloop.
Defined.


End Runs.

(** ** Further properties of the text splitter *)

Section SplitterMore.

Import TextSplitter.

(** *** [strip] *)

Lemma lstrip_by_clean_head p s : Py.clean_head p (Py.lstrip_by p s).
Proof.
  induction s as [|c s IH]; simpl; [done|].
  destruct (p c) eqn:Hc; [exact IH|exact Hc].
Qed.

Lemma lstrip_by_id p s : Py.clean_head p s -> Py.lstrip_by p s = s.
Proof. destruct s as [|c s]; simpl; [done|]. by intros ->. Qed.

Lemma rstrip_by_clean_head p s :
  Py.clean_head p s -> Py.clean_head p (Py.rstrip_by p s).
Proof.
  destruct s as [|c s]; simpl; [done|]. intros Hc.
  destruct (Py.rstrip_by p s); [rewrite Hc|]; exact Hc.
Qed.

Lemma rstrip_by_idem p s :
  Py.rstrip_by p (Py.rstrip_by p s) = Py.rstrip_by p s.
Proof.
  induction s as [|c s IH]; simpl; [done|].
  destruct (Py.rstrip_by p s) as [|c' r] eqn:Hr.
  - destruct (p c) eqn:Hc; simpl; [done|]. by rewrite Hc.
  - cbn [Py.rstrip_by] in IH |- *. rewrite IH. done.
Qed.

Lemma strip_idem s : Py.strip (Py.strip s) = Py.strip s.
Proof.
  unfold Py.strip.
  rewrite (lstrip_by_id Py.isspace (Py.rstrip_by _ _))
    by apply rstrip_by_clean_head, lstrip_by_clean_head.
  apply rstrip_by_idem.
Qed.

(** *** What [merge_splits] returns *)

Lemma join_docs_stripped docs sep doc :
  join_docs docs sep = Some doc -> doc <> EmptyString /\ Py.strip doc = doc.
Proof.
  unfold join_docs. destruct (Py.strip _) as [|c t] eqn:Hs; [done|].
  simpl. intros [= <-]. split; [done|]. rewrite <- Hs. apply strip_idem.
Qed.

Lemma join_docs_nil sep : join_docs [] sep = None.
Proof. reflexivity. Qed.

(** Whatever holds of every chunk [_join_docs] can close holds of the
    chunks of [merge_splits]. *)
Lemma merge_splits_docs (P : string -> Prop) self sep splits chunks :
  (forall cur doc, join_docs cur sep = Some doc -> P doc) ->
  merge_splits self splits sep = Ok chunks ->
  Forall P chunks.
Proof.
  intros HP. unfold merge_splits.
  assert (forall splits st st',
    Forall P (docs st) -> merge_loop self sep splits st = Ok st' ->
    Forall P (docs st')) as Hloop.
  { clear splits. induction splits as [|d splits IH]; intros st st' Hdocs.
    - by intros [= <-].
    - simpl. destruct (merge_step self sep st d) as [st1|e|] eqn:Hs;
        [|discriminate..].
      simpl. apply IH. revert Hs. unfold merge_step.
      destruct (_ >=? _); [|by intros [= <-]].
      destruct (current st) as [|c rest]; [by intros [= <-]|].
      destruct (merge_evict _ _ _ _) as [[cur' tot']|e|]; [|discriminate..].
      simpl. intros [= <-]. simpl.
      destruct (join_docs _ sep) as [doc|] eqn:Hj; [|done].
      apply Forall_app. split; [done|]. apply Forall_singleton. eauto. }
  destruct (merge_loop self sep splits _) as [st|e|] eqn:Hl; [|discriminate..].
  apply Hloop in Hl; [|done]. simpl.
  destruct (join_docs _ sep) as [doc|] eqn:Hj; intros [= <-]; [|done].
  apply Forall_app. split; [done|]. apply Forall_singleton. eauto.
Qed.

Lemma split_loop_docs (P : string -> Prop) self sep rec splits :
  (forall cur doc, join_docs cur sep = Some doc -> P doc) ->
  (forall s chunks, rec s = Ok chunks -> Forall P chunks) ->
  forall fc gs chunks,
    Forall P fc ->
    split_loop self sep rec splits fc gs = Ok chunks ->
    Forall P chunks.
Proof.
  intros HP Hrec.
  assert (forall fc gs chunks,
    Forall P fc -> flush self sep fc gs = Ok chunks -> Forall P chunks)
    as Hflush.
  { intros fc gs chunks Hfc. destruct gs as [|g gs]; simpl.
    - by intros [= <-].
    - destruct (merge_splits self (g :: gs) sep) as [m|e|] eqn:Hm;
        [|discriminate..].
      simpl. intros [= <-]. apply Forall_app. split; [done|].
      by eapply merge_splits_docs. }
  induction splits as [|s splits IH]; intros fc gs chunks Hfc; simpl.
  - by apply Hflush.
  - destruct (_ <? _); [by apply IH|].
    destruct (flush self sep fc gs) as [fc'|e|] eqn:Hf; [|discriminate..].
    simpl. destruct (rec s) as [sub|e|] eqn:Hr; [|discriminate..].
    simpl. apply IH. apply Forall_app. split; [by eapply Hflush|by eapply Hrec].
Qed.

(** X4. No chunk returned by [split_text] is empty, and none begins or ends
    with white space: each is what [strip] leaves of itself. *)
Theorem split_text_chunks_stripped fuel
    (self : RecursiveCharacterTextSplitter) text chunks :
  split_text fuel self text = Ok chunks ->
  Forall (fun chunk => chunk <> EmptyString /\ Py.strip chunk = chunk) chunks.
Proof.
  revert text chunks. induction fuel as [|fuel IH]; intros text chunks.
  - discriminate.
  - cbn [split_text]. destruct (negb _); [by intros [= <-]|].
    destruct (choose_separator _ _) as [sep|e|]; [|discriminate..].
    cbn [out_bind].
    destruct (split_on text sep) as [splits|e|]; [|discriminate..].
    cbn [out_bind]. apply split_loop_docs; [|apply IH|done].
    intros cur doc. apply join_docs_stripped.
Qed.

(** *** The size of the chunks of [merge_splits] *)

Lemma merge_splits_sized (P : string -> Prop) self sep splits chunks :
  (forall cur doc,
     sum_len cur <= chunk_size self -> join_docs cur sep = Some doc -> P doc) ->
  Forall (fun d => Py.len d < chunk_size self) splits ->
  merge_splits self splits sep = Ok chunks ->
  Forall P chunks.
Proof.
  intros HP Hsplits. unfold merge_splits.
  assert (forall splits st st',
    Forall (fun d => Py.len d < chunk_size self) splits ->
    total st = sum_len (current st) -> total st <= chunk_size self ->
    Forall P (docs st) ->
    merge_loop self sep splits st = Ok st' ->
    total st' <= chunk_size self /\ total st' = sum_len (current st') /\
    Forall P (docs st')) as Hloop.
  { clear splits Hsplits.
    induction splits as [|d splits IH]; intros st st' Hs Htot Hle Hdocs.
    - by intros [= <-].
    - apply Forall_cons in Hs as [Hd Hs]. simpl.
      destruct (merge_step self sep st d) as [st1|e|] eqn:Hstep;
        [|discriminate..].
      simpl. revert Hstep. unfold merge_step.
      destruct (Z.geb_spec (total st + Py.len d) (chunk_size self)).
      + destruct (current st) as [|c rest] eqn:Hcur; [simpl in Htot; lia|].
        rewrite Htot.
        destruct (merge_evict self (Py.len d) (c :: rest) _)
          as [[cur' tot']|e|] eqn:Hev; [|discriminate..].
        apply merge_evict_bound in Hev as [-> Hexit].
        simpl. intros [= <-]. apply IH; simpl; [done| | |].
        * by rewrite sum_len_snoc.
        * lia.
        * destruct (join_docs _ sep) as [doc|] eqn:Hj; [|done].
          apply Forall_app. split; [done|]. apply Forall_singleton.
          eapply HP; [|exact Hj]. lia.
      + intros [= <-]. apply IH; simpl; [done| |lia|done].
        rewrite sum_len_snoc. lia. }
  destruct splits as [|d0 splits0]; [by intros [= <-]|].
  assert (0 <= chunk_size self) as Hcs.
  { apply Forall_cons in Hsplits as [Hd _]. unfold Py.len in Hd. lia. }
  destruct (merge_loop self sep (d0 :: splits0) _) as [st|e|] eqn:Hl;
    [|discriminate..].
  apply Hloop in Hl as (Hle & Htot & Hdocs); [|done..]. simpl.
  destruct (join_docs _ sep) as [doc|] eqn:Hj; intros [= <-]; [|done].
  apply Forall_app. split; [done|]. apply Forall_singleton.
  eapply HP; [|exact Hj]. lia.
Qed.

(** X5. Merging pieces that are each shorter than [chunk_size]: a chunk is the
    stripped join of pieces whose lengths sum to at most [chunk_size], so it
    is longer than [chunk_size] by at most the separators between its
    pieces, and not at all when the separator is empty. *)
Theorem merge_splits_chunk_length self splits sep chunks :
  Forall (fun d => Py.len d < chunk_size self) splits ->
  merge_splits self splits sep = Ok chunks ->
  Forall
    (fun chunk =>
       exists pieces,
         chunk = Py.strip (Py.join sep pieces) /\
         sum_len pieces <= chunk_size self /\
         Py.len chunk
         <= chunk_size self + Py.len sep * Z.of_nat (Nat.pred (length pieces)))
    chunks /\
  (sep = EmptyString ->
   Forall (fun chunk => Py.len chunk <= chunk_size self) chunks).
Proof.
  intros Hsplits Hm.
  assert (forall cur doc,
    sum_len cur <= chunk_size self -> join_docs cur sep = Some doc ->
    doc = Py.strip (Py.join sep cur) /\
    Py.len doc
    <= chunk_size self + Py.len sep * Z.of_nat (Nat.pred (length cur)))
    as Hdoc.
  { intros cur doc Hsum. unfold join_docs.
    destruct (Py.truthy _); [|discriminate]. intros [= <-]. split; [done|].
    pose proof (strip_length (Py.join sep cur)) as Hs.
    rewrite join_length in Hs. lia. }
  split.
  - eapply merge_splits_sized; [|exact Hsplits|exact Hm].
    intros cur doc Hsum Hj. exists cur.
    destruct (Hdoc cur doc Hsum Hj) as [-> Hlen]. done.
  - intros ->. eapply merge_splits_sized; [|exact Hsplits|exact Hm].
    intros cur doc Hsum Hj. destruct (Hdoc cur doc Hsum Hj) as [_ Hlen].
    unfold Py.len in Hlen at 2. simpl in Hlen. lia.
Qed.

(** *** The overlap window *)

Lemma merge_evict_window self len cur cur' tot' :
  merge_evict self len cur (sum_len cur) = Ok (cur', tot') ->
  tot' = sum_len cur' /\
  tot' <= chunk_overlap self /\
  (tot' + len <= chunk_size self \/ tot' = 0) /\
  exists dropped, cur = dropped ++ cur'.
Proof.
  induction cur as [|c rest IH]; cbn [merge_evict].
  - destruct (_ || _) eqn:Hc; [discriminate|]. intros [= <- <-].
    apply orb_false_iff in Hc as [Hc _].
    rewrite Z.gtb_ltb in Hc. apply Z.ltb_ge in Hc. simpl in *.
    split; [done|]. split; [done|]. split; [by right|]. by exists [].
  - destruct (_ || _) eqn:Hc.
    + replace (sum_len (c :: rest) - Py.len c) with (sum_len rest)
        by (simpl; lia).
      intros (Ht & Hov & Hexit & dropped & ->)%IH.
      split; [done|]. split; [done|]. split; [done|].
      by exists (c :: dropped).
    + intros [= <- <-]. pose proof (sum_len_nonneg (c :: rest)) as Hpos.
      apply orb_false_iff in Hc as [Hov Hc].
      rewrite Z.gtb_ltb in Hov. apply Z.ltb_ge in Hov.
      apply andb_false_iff in Hc.
      rewrite !Z.gtb_ltb, !Z.ltb_ge in Hc. simpl in Hov, Hc, Hpos.
      split; [done|]. split; [done|]. split; [lia|]. by exists [].
Qed.

(** X6. When a piece [d] makes [merge_splits] close the chunk it is filling,
    the chunk closed is the join of the whole buffer, and the next chunk
    starts from a tail of that buffer whose pieces are together no longer
    than [chunk_overlap], followed by [d]. *)
Theorem merge_step_overlap self sep st d st' :
  total st = sum_len (current st) ->
  current st <> [] ->
  chunk_size self <= total st + Py.len d ->
  merge_step self sep st d = Ok st' ->
  exists dropped kept,
    current st = dropped ++ kept /\
    current st' = kept ++ [d] /\
    sum_len kept <= chunk_overlap self /\
    (sum_len kept + Py.len d <= chunk_size self \/ sum_len kept = 0) /\
    total st' = sum_len (current st') /\
    docs st'
    = docs st ++ match join_docs (current st) sep with
                 | Some doc => [doc]
                 | None => []
                 end.
Proof.
  intros Htot Hcur Hfull. unfold merge_step.
  destruct (Z.geb_spec (total st + Py.len d) (chunk_size self)); [|lia].
  destruct (current st) as [|c rest] eqn:E; [done|]. rewrite Htot.
  destruct (merge_evict self (Py.len d) (c :: rest) _)
    as [[kept tot']|e|] eqn:Hev; [|discriminate..].
  apply merge_evict_window in Hev as (-> & Hov & Hexit & dropped & Hsplit).
  simpl. intros [= <-]. exists dropped, kept. simpl.
  rewrite sum_len_snoc.
  split; [done|]. split; [done|]. split; [done|]. split; [done|].
  split; [done|].
  destruct (join_docs _ sep); [done|by rewrite app_nil_r].
Qed.

(** *** A negative overlap *)

Lemma merge_evict_negative self len cur :
  chunk_overlap self < 0 ->
  merge_evict self len cur (sum_len cur) = Raise IndexError.
Proof.
  intros Hov. induction cur as [|c rest IH]; cbn [merge_evict].
  - destruct (Z.gtb_spec (sum_len []) (chunk_overlap self)) as [|Hle];
      [done|]. simpl in Hle. lia.
  - pose proof (sum_len_nonneg (c :: rest)) as Hpos.
    destruct (Z.gtb_spec (sum_len (c :: rest)) (chunk_overlap self));
      [|lia].
    cbn [orb].
    replace (sum_len (c :: rest) - Py.len c) with (sum_len rest)
      by (simpl; lia).
    exact IH.
Qed.

(** X7. The constructor accepts a negative [chunk_overlap]; [merge_splits]
    then raises [IndexError] as soon as the first two pieces together reach
    [chunk_size], whatever follows. *)
Theorem merge_splits_negative_overlap self d1 d2 splits sep :
  chunk_overlap self < 0 ->
  chunk_overlap self < chunk_size self ->
  chunk_size self <= Py.len d1 + Py.len d2 ->
  init (chunk_size self) (chunk_overlap self) = Ok self /\
  merge_splits self (d1 :: d2 :: splits) sep = Raise IndexError.
Proof.
  intros Hov Hlt Hfull. split.
  { unfold init.
    destruct (Z.geb_spec (chunk_overlap self) (chunk_size self)); [lia|].
    by destruct self. }
  unfold merge_splits. cbn [merge_loop].
  assert (exists st1,
    merge_step self sep (mkMergeState [] [] 0) d1 = Ok st1 /\
    current st1 = [d1] /\ total st1 = Py.len d1) as (st1 & -> & Hc & Ht).
  { unfold merge_step. simpl. destruct (_ >=? _); eauto. }
  cbn [out_bind]. unfold merge_step at 1. rewrite Hc, Ht.
  destruct (Z.geb_spec (Py.len d1 + Py.len d2) (chunk_size self)); [|lia].
  replace (Py.len d1) with (sum_len [d1]) at 1 by (simpl; lia).
  rewrite merge_evict_negative by done. reflexivity.
Qed.

(** *** The partition of the text *)

Lemma string_append_assoc (a b c : string) :
  ((a ++ b) ++ c = a ++ (b ++ c))%string.
Proof. induction a as [|x a IH]; simpl; [done|]. by rewrite IH. Qed.

Lemma string_append_nil_r (a : string) : (a ++ "")%string = a.
Proof. induction a as [|x a IH]; simpl; [done|]. by rewrite IH. Qed.

Lemma rev_string_app cur tl :
  Py.rev_string cur tl = (Py.rev_string cur EmptyString ++ tl)%string.
Proof.
  revert tl. induction cur as [|c cur IH]; intros tl; simpl; [done|].
  rewrite IH, (IH (String c EmptyString)).
  by rewrite string_append_assoc.
Qed.

Lemma prefix_append a b :
  String.prefix a b = true -> exists t, b = (a ++ t)%string.
Proof.
  revert b. induction a as [|c a IH]; intros b.
  - by exists b.
  - destruct b as [|c' b]; simpl; [done|].
    destruct (Ascii.ascii_dec c c') as [->|]; [|done].
    intros [t ->]%IH. by exists t.
Qed.

Lemma split_go_skip sep cur a t :
  Py.split_go sep (String.length a) cur (a ++ t) = Py.split_go sep 0 cur t.
Proof.
  induction a as [|c a IH]; simpl; [done|]. exact IH.
Qed.

Lemma split_go_not_nil sep skip cur s : Py.split_go sep skip cur s <> [].
Proof.
  revert skip cur. induction s as [|c s IH]; intros skip cur;
    cbn [Py.split_go]; [done|].
  destruct skip; [|apply IH]. destruct (String.prefix _ _); [done|apply IH].
Qed.

Lemma join_cons sep x l :
  l <> [] -> Py.join sep (x :: l) = (x ++ sep ++ Py.join sep l)%string.
Proof. by destruct l. Qed.

Lemma split_go_join sep (n : nat) :
  sep <> EmptyString ->
  forall s cur,
    (String.length s <= n)%nat ->
    Py.join sep (Py.split_go sep 0 cur s) = Py.rev_string cur s.
Proof.
  intros Hsep. induction n as [|n IH]; intros s cur Hlen.
  - destruct s; [|simpl in Hlen; lia]. reflexivity.
  - destruct s as [|c s]; [reflexivity|]. cbn [Py.split_go].
    destruct (String.prefix sep (String c s)) eqn:Hp.
    + apply prefix_append in Hp as [t Ht].
      destruct sep as [|c0 sep0]; [done|]. simpl in Ht.
      injection Ht as -> ->. cbn [String.length Nat.pred].
      rewrite split_go_skip, join_cons by apply split_go_not_nil.
      simpl in Hlen. rewrite string_length_append in Hlen.
      rewrite IH by lia.
      simpl. by rewrite (rev_string_app cur (String _ _)).
    + rewrite IH; [done|simpl in Hlen; lia].
Qed.

Lemma chars_join s : Py.join EmptyString (Py.chars s) = s.
Proof.
  induction s as [|c s IH]; [done|]. simpl Py.chars.
  destruct (Py.chars s) as [|x l] eqn:Hc.
  - destruct s; [done|discriminate].
  - rewrite join_cons by done. rewrite IH. done.
Qed.

Lemma split_on_joined text sep splits :
  split_on text sep = Ok splits -> Py.join sep splits = text.
Proof.
  unfold split_on. destruct sep as [|c sep]; simpl.
  - intros [= <-]. apply chars_join.
  - intros [= <-]. by rewrite (split_go_join _ (String.length text)).
Qed.

(** X8. The pieces [split_text] cuts a text into lose nothing: joined by the
    separator they were cut at, they give the text back. *)
Theorem split_on_join text sep splits :
  split_on text sep = Ok splits -> Py.join sep splits = text.
Proof. apply split_on_joined. Qed.

(** *** Several texts *)

(** *** Chunks are slices of the text *)

Lemma occurs_in_trans a b c : occurs_in a b -> occurs_in b c -> occurs_in a c.
Proof.
  intros (p1 & q1 & ->) (p2 & q2 & ->).
  exists (p2 ++ p1)%string, (q1 ++ q2)%string.
  by rewrite !string_append_assoc.
Qed.

Lemma join_app sep x y :
  x <> [] -> y <> [] ->
  Py.join sep (x ++ y) = (Py.join sep x ++ sep ++ Py.join sep y)%string.
Proof.
  intros Hx Hy. induction x as [|a x IH]; [done|].
  destruct x as [|b x].
  - simpl app. by rewrite join_cons.
  - change ((a :: b :: x) ++ y) with (a :: ((b :: x) ++ y)).
    rewrite join_cons by done. rewrite IH by done.
    rewrite (join_cons sep a (b :: x)) by done.
    by rewrite !string_append_assoc.
Qed.

Lemma join_window sep w l :
  window_of w l -> occurs_in (Py.join sep w) (Py.join sep l).
Proof.
  intros (a & b & ->). destruct w as [|x w].
  - exists (Py.join sep (a ++ b)), EmptyString. simpl.
    by rewrite string_append_nil_r.
  - destruct a as [|y a], b as [|z b].
    + exists EmptyString, EmptyString. simpl.
      by rewrite app_nil_r, string_append_nil_r.
    + exists EmptyString, (sep ++ Py.join sep (z :: b))%string.
      rewrite app_nil_l. by rewrite (join_app sep (x :: w) (z :: b)).
    + exists (Py.join sep (y :: a) ++ sep)%string, EmptyString.
      rewrite app_nil_r. rewrite (join_app sep (y :: a) (x :: w)) by done.
      by rewrite string_append_nil_r, string_append_assoc.
    + exists (Py.join sep (y :: a) ++ sep)%string,
        (sep ++ Py.join sep (z :: b))%string.
      rewrite (join_app sep (y :: a) ((x :: w) ++ z :: b)) by done.
      rewrite (join_app sep (x :: w) (z :: b)) by done.
      by rewrite !string_append_assoc.
Qed.

Lemma window_of_trans w l m : window_of w l -> window_of l m -> window_of w m.
Proof.
  intros (a1 & b1 & ->) (a2 & b2 & ->). exists (a2 ++ a1), (b1 ++ b2).
  by rewrite <- !app_assoc.
Qed.

Lemma window_of_Forall (P : string -> Prop) w l :
  window_of w l -> Forall P l -> Forall P w.
Proof.
  intros (a & b & ->) H. apply Forall_app in H as [_ H].
  by apply Forall_app in H as [H _].
Qed.

(** The chunks of [merge_splits] are joins of runs of consecutive pieces. *)
Lemma merge_splits_windows self sep splits chunks :
  Forall (fun d => Py.len d < chunk_size self) splits ->
  merge_splits self splits sep = Ok chunks ->
  Forall
    (fun chunk =>
       exists w,
         window_of w splits /\
         chunk = Py.strip (Py.join sep w) /\
         sum_len w <= chunk_size self)
    chunks.
Proof.
  intros Hsplits. unfold merge_splits.
  set (Q := fun (l : list string) (chunk : string) =>
              exists w,
                window_of w l /\
                chunk = Py.strip (Py.join sep w) /\
                sum_len w <= chunk_size self).
  assert (forall l d chunk, Q l chunk -> Q (l ++ [d]) chunk) as Hmono.
  { intros l d chunk (w & (a & b & ->) & Hc & Hsum). exists w.
    split; [|done]. exists a, (b ++ [d]). by rewrite <- !app_assoc. }
  assert (forall cur l doc,
    (exists a, l = a ++ cur) -> sum_len cur <= chunk_size self ->
    join_docs cur sep = Some doc -> Q l doc) as Hdoc.
  { intros cur l doc [a ->] Hsum. unfold join_docs.
    destruct (Py.truthy _); [|discriminate]. intros [= <-].
    exists cur. split; [|done]. exists a, []. by rewrite app_nil_r. }
  assert (forall splits seen st st',
    Forall (fun d => Py.len d < chunk_size self) splits ->
    (exists a, seen = a ++ current st) ->
    total st = sum_len (current st) -> total st <= chunk_size self ->
    Forall (Q seen) (docs st) ->
    merge_loop self sep splits st = Ok st' ->
    (exists a, seen ++ splits = a ++ current st') /\
    total st' = sum_len (current st') /\ total st' <= chunk_size self /\
    Forall (Q (seen ++ splits)) (docs st')) as Hloop.
  { clear splits Hsplits.
    induction splits as [|d splits IH];
      intros seen st st' Hs Hcur Htot Hle Hdocs.
    - intros [= <-]. by rewrite app_nil_r.
    - apply Forall_cons in Hs as [Hd Hs]. simpl.
      destruct (merge_step self sep st d) as [st1|e|] eqn:Hstep;
        [|discriminate..].
      simpl. replace (seen ++ d :: splits) with ((seen ++ [d]) ++ splits)
        by (by rewrite <- app_assoc).
      assert (Forall (Q (seen ++ [d])) (docs st)) as Hdocs1
        by (eapply Forall_impl; [exact Hdocs|]; intros; by apply Hmono).
      revert Hstep. unfold merge_step.
      destruct (Z.geb_spec (total st + Py.len d) (chunk_size self)).
      + destruct (current st) as [|c rest] eqn:Hc; [simpl in Htot; lia|].
        rewrite Htot.
        destruct (merge_evict self (Py.len d) (c :: rest) _)
          as [[cur' tot']|e|] eqn:Hev; [|discriminate..].
        apply merge_evict_window in Hev
          as (-> & _ & Hexit & dropped & Hdrop).
        simpl. intros [= <-]. apply IH; simpl; [done| | | |].
        * destruct Hcur as [a ->]. exists (a ++ dropped).
          by rewrite Hdrop, <- !app_assoc.
        * by rewrite sum_len_snoc.
        * lia.
        * destruct (join_docs _ sep) as [doc|] eqn:Hj; [|done].
          apply Forall_app. split; [done|]. apply Forall_singleton.
          apply Hmono. eapply Hdoc; [exact Hcur| |exact Hj]. lia.
      + intros [= <-]. apply IH; simpl; [done| | |lia|done].
        * destruct Hcur as [a ->]. exists a. by rewrite <- app_assoc.
        * rewrite sum_len_snoc. lia. }
  destruct splits as [|d0 splits0]; [by intros [= <-]|].
  assert (0 <= chunk_size self) as Hcs.
  { apply Forall_cons in Hsplits as [Hd _]. unfold Py.len in Hd. lia. }
  destruct (merge_loop self sep (d0 :: splits0) _) as [st|e|] eqn:Hl;
    [|discriminate..].
  apply (Hloop _ []) in Hl as (Hcur & Htot & Hle & Hdocs);
    [|done|by exists []|done|done|done].
  simpl in Hcur, Hdocs |- *.
  destruct (join_docs _ sep) as [doc|] eqn:Hj; intros [= <-]; [|done].
  apply Forall_app. split; [done|]. apply Forall_singleton.
  eapply Hdoc; [exact Hcur| |exact Hj]. lia.
Qed.

Lemma choose_separator_in seps text sep :
  choose_separator seps text = Ok sep -> In sep seps.
Proof.
  unfold choose_separator. destruct (last seps) as [dflt|] eqn:Hlast;
    [|discriminate].
  intros [= <-]. destruct (find _ seps) as [s|] eqn:Hfind; simpl.
  - by apply find_some in Hfind as [Hin _].
  - apply last_Some in Hlast as [l ->]. apply in_app_iff. right. by left.
Qed.

Lemma split_loop_slices (self : RecursiveCharacterTextSplitter) sep text all
    rec :
  In sep (separators self) ->
  Py.join sep all = text ->
  (forall s chunks, rec s = Ok chunks -> Forall (packed self s) chunks) ->
  forall splits seen fc gs chunks,
    all = seen ++ splits ->
    (exists a, seen = a ++ gs) ->
    Forall (fun d => Py.len d < chunk_size self) gs ->
    Forall (packed self text) fc ->
    split_loop self sep rec splits fc gs = Ok chunks ->
    Forall (packed self text) chunks.
Proof.
  intros Hsep Htext Hrec.
  assert (forall fc gs chunks,
    window_of gs all ->
    Forall (fun d => Py.len d < chunk_size self) gs ->
    Forall (packed self text) fc ->
    flush self sep fc gs = Ok chunks -> Forall (packed self text) chunks)
    as Hflush.
  { intros fc gs chunks Hwin Hgs Hfc. destruct gs as [|g gs]; simpl.
    - by intros [= <-].
    - destruct (merge_splits self (g :: gs) sep) as [m|e|] eqn:Hm;
        [|discriminate..].
      simpl. intros [= <-]. apply Forall_app. split; [done|].
      apply merge_splits_windows in Hm; [|done].
      eapply Forall_impl; [exact Hm|].
      intros chunk (w & Hw & -> & Hsum). exists sep, w.
      split; [done|]. split; [done|]. split; [|split; [|done]].
      + rewrite <- Htext. apply join_window. by eapply window_of_trans.
      + by eapply window_of_Forall. }
  induction splits as [|s splits IH];
    intros seen fc gs chunks Hall [a Hseen] Hgs Hfc; simpl.
  - apply Hflush; [|done..]. exists a, []. by rewrite Hall, Hseen, !app_nil_r.
  - assert (window_of gs all) as Hwin
      by (exists a, (s :: splits); by rewrite Hall, Hseen, <- app_assoc).
    destruct (Z.ltb_spec (Py.len s) (chunk_size self)).
    + apply (IH (seen ++ [s])); [by rewrite <- app_assoc| |
        by apply Forall_app; split; [|apply Forall_singleton]|done].
      exists a. by rewrite Hseen, <- app_assoc.
    + destruct (flush self sep fc gs) as [fc'|e|] eqn:Hf; [|discriminate..].
      simpl. destruct (rec s) as [sub|e|] eqn:Hr; [|discriminate..].
      simpl. apply (IH (seen ++ [s])); [by rewrite <- app_assoc|
        by exists (seen ++ [s]); rewrite app_nil_r|done|].
      apply Forall_app. split; [by eapply Hflush|].
      assert (occurs_in s text) as Hs.
      { rewrite <- Htext. change s with (Py.join sep [s]) at 1.
        apply join_window. exists seen, splits. by rewrite Hall. }
      eapply Forall_impl; [by eapply Hrec|].
      intros chunk (sep' & w & Hin & -> & Hocc & Hw & Hsum).
      exists sep', w. split; [done|]. split; [done|].
      split; [by eapply occurs_in_trans|done].
Qed.

(** X2. Every chunk returned by [split_text] is cut from the text: for one
    of the separators of the splitter it is the stripped join of pieces that
    are each shorter than [chunk_size] and whose lengths, without the
    separators between them, sum to at most [chunk_size], and that join is
    a slice of the text. *)
Theorem split_text_packed fuel (self : RecursiveCharacterTextSplitter)
    text chunks :
  split_text fuel self text = Ok chunks ->
  Forall (packed self text) chunks.
Proof.
  revert text chunks. induction fuel as [|fuel IH]; intros text chunks.
  - discriminate.
  - cbn [split_text]. destruct (negb _); [by intros [= <-]|].
    destruct (choose_separator _ _) as [sep|e|] eqn:Hsep; [|discriminate..].
    cbn [out_bind].
    destruct (split_on text sep) as [splits|e|] eqn:Hsplit;
      [|discriminate..].
    cbn [out_bind].
    apply (split_loop_slices self sep text splits (split_text fuel self)
             (choose_separator_in _ _ _ Hsep) (split_on_joined _ _ _ Hsplit)
             IH splits [] [] []); [done|by exists []|done|done].
Qed.

Lemma create_documents_app fuel self texts1 texts2 :
  create_documents fuel self (texts1 ++ texts2)
  = out_bind (create_documents fuel self texts1)
      (fun chunks1 =>
         out_bind (create_documents fuel self texts2)
           (fun chunks2 => Ok (chunks1 ++ chunks2))).
Proof.
  induction texts1 as [|t texts1 IH]; simpl.
  - by destruct (create_documents fuel self texts2).
  - destruct (split_text fuel self t) as [chunks|e|]; [|done..]. simpl.
    rewrite IH.
    destruct (create_documents fuel self texts1) as [c1|e|]; [|done..].
    simpl.
    destruct (create_documents fuel self texts2) as [c2|e|]; [|done..].
    simpl. by rewrite app_assoc.
Qed.

(** X9. [split_documents] returns the chunks of each text, one text after the
    other, when each text is split without an exception; empty texts add
    nothing. *)
Theorem split_documents_concat fuel self texts chunkss :
  Forall2 (fun text chunks => split_text fuel self text = Ok chunks)
    texts chunkss ->
  split_documents fuel self texts = Ok (concat chunkss) /\
  split_documents fuel self (List.filter Py.truthy texts)
  = split_documents fuel self texts.
Proof.
  unfold split_documents. induction 1 as [|text chunks texts chunkss Ht _ IH].
  - done.
  - destruct IH as [IH1 IH2]. split.
    + simpl. by rewrite Ht, IH1.
    + simpl. destruct text as [|c text]; simpl.
      * rewrite IH2. destruct fuel; [done|]. simpl in Ht |- *.
        by destruct (create_documents (S fuel) self texts).
      * by rewrite IH2.
Qed.

End SplitterMore.

(** ** Further properties of the parsing and of the final synthesis *)

Section ParsingMore.

Import Research.

Lemma learning_line_fold lines acc :
  fold_left learning_line lines acc
  = (fst acc ++ learnings_of_lines lines,
     snd acc ++ follow_ups_of_lines lines).
Proof.
  revert acc. induction lines as [|line lines IH]; intros [ls fs].
  - simpl. by rewrite !app_nil_r.
  - cbn [fold_left]. rewrite IH.
    unfold learning_line, learnings_of_lines, follow_ups_of_lines.
    cbn [List.filter fst snd].
    destruct (Py.startswith line "-"); cbn [negb andb map fst snd].
    + by rewrite <- app_assoc.
    + destruct (Py.truthy (Py.strip line)); cbn [map fst snd]; [|done].
      by rewrite <- app_assoc.
Qed.

Lemma length_firstn_Z {A} (n : Z) (l : list A) :
  0 <= n -> Z.of_nat (length (firstn (Z.to_nat n) l)) <= n.
Proof. intros Hn. rewrite length_take. lia. Qed.

(** X10. The result processor sorts the lines of the completion: a line that
    starts with a dash is a learning and loses the dashes and spaces at its
    head, even when nothing is left of it; any other line that is not blank
    is a follow-up question, stripped; each list is cut to its maximum. No
    learning begins with a dash or a space, and no follow-up question is
    empty. *)
Theorem process_serp_result_lines
    (World : Type) (complete : string -> World -> response string * World)
    (query : string) (result : list SearchResult)
    (num_learnings num_follow_up_questions : Z)
    (st : state World) (output : string) (w : World) :
  0 <= num_learnings -> 0 <= num_follow_up_questions ->
  complete (result_prompt query result num_learnings num_follow_up_questions)
    (world st) = (Returns output, w) ->
  let lines := Py.splitlines output in
  let learnings := firstn (Z.to_nat num_learnings) (learnings_of_lines lines) in
  let follow_ups :=
    firstn (Z.to_nat num_follow_up_questions) (follow_ups_of_lines lines) in
  process_serp_result World complete query result num_learnings
    num_follow_up_questions st
  = (Ok (learnings, follow_ups), set_world st w) /\
  Z.of_nat (length learnings) <= num_learnings /\
  Z.of_nat (length follow_ups) <= num_follow_up_questions /\
  Forall (Py.clean_head (fun c => existsb (Ascii.eqb c) ["-"; " "]%char))
    learnings /\
  Forall (fun f => f <> EmptyString /\ Py.strip f = f) follow_ups.
Proof.
  intros Hl Hf Hc lines learnings follow_ups.
  split; [|split; [|split; [|split]]].
  - unfold process_serp_result, bind, lift, ret. rewrite Hc.
    unfold parse_serp_result. rewrite learning_line_fold. simpl.
    unfold Py.slice_to.
    destruct (Z.leb_spec 0 num_learnings); [|lia].
    destruct (Z.leb_spec 0 num_follow_up_questions); [|lia]. done.
  - by apply length_firstn_Z.
  - by apply length_firstn_Z.
  - apply Forall_take. unfold learnings_of_lines.
    apply List.Forall_map, Forall_forall. intros line _.
    apply lstrip_by_clean_head.
  - apply Forall_take. unfold follow_ups_of_lines.
    apply List.Forall_map, Forall_forall.
    intros line [_ Hline%andb_prop]%list_elem_of_In%filter_In.
    destruct Hline as [_ Hline]. split; [|apply strip_idem].
    by destruct (Py.strip line).
Qed.

(** *** Lines written, lines read *)

Lemma splitlines_go_line cur x rest :
  Py.one_line x = true ->
  Py.splitlines_go cur (x ++ String "010" rest)
  = (Py.rev_string cur EmptyString ++ x)%string :: Py.splitlines_go [] rest.
Proof.
  revert cur. induction x as [|a x IH]; intros cur Hx.
  - cbn. replace (Py.is_linebreak "010") with true by reflexivity.
    rewrite string_append_nil_r. by destruct rest.
  - cbn in Hx. apply andb_prop in Hx as [Ha Hx].
    apply negb_true_iff in Ha. cbn [String.append Py.splitlines_go].
    rewrite Ha, IH by done. cbn [Py.rev_string].
    rewrite (rev_string_app cur (String a EmptyString)).
    by rewrite string_append_assoc.
Qed.

Lemma splitlines_go_last cur x :
  Py.one_line x = true -> x <> EmptyString ->
  Py.splitlines_go cur x = [(Py.rev_string cur EmptyString ++ x)%string].
Proof.
  revert cur. induction x as [|a x IH]; intros cur Hx Hne; [done|].
  cbn in Hx. apply andb_prop in Hx as [Ha Hx].
  apply negb_true_iff in Ha. cbn [Py.splitlines_go]. rewrite Ha.
  destruct x as [|b x].
  - cbn. rewrite (rev_string_app cur (String a EmptyString)). done.
  - rewrite IH by done. cbn [Py.rev_string].
    rewrite (rev_string_app cur (String a EmptyString)).
    by rewrite string_append_assoc.
Qed.

(** Lines that are not empty and hold no line boundary, joined by line
    feeds, are read back by [splitlines] as they were. *)
Lemma splitlines_join xs :
  Forall (fun x => x <> EmptyString /\ Py.one_line x = true) xs ->
  Py.splitlines (Py.join newline xs) = xs.
Proof.
  unfold Py.splitlines, newline.
  induction 1 as [|x xs [Hne Hx] Hxs IH]; [done|].
  destruct xs as [|y xs].
  - simpl. by rewrite splitlines_go_last.
  - rewrite join_cons by done. cbn [String.append].
    rewrite splitlines_go_line by done. by rewrite IH.
Qed.

(** X11. A completion that lists its queries one per line, each of them
    stripped, not empty and without a line boundary, is parsed by the
    planner into those very queries, in order, cut to [num_queries]. *)
Theorem parse_serp_queries_of_lines (queries : list string) num_queries :
  0 <= num_queries ->
  Forall
    (fun q => q <> EmptyString /\ Py.strip q = q /\ Py.one_line q = true)
    queries ->
  parse_serp_queries (Py.join newline queries) num_queries
  = firstn (Z.to_nat num_queries) (map (fun q => mkSerpQuery q q) queries).
Proof.
  intros Hn Hq. rewrite parse_serp_queries_per_line by done.
  unfold queries_per_line. rewrite splitlines_join.
  - f_equal. induction Hq as [|q qs (Hne & Hs & _) _ IH]; [done|].
    simpl. rewrite Hs. destruct q; [done|]. simpl. by rewrite IH, Hs.
  - eapply Forall_impl; [exact Hq|]. by intros q (? & _ & ?).
Qed.

(** *** The final synthesis *)

Lemma bullet_list_lines xs :
  Forall (fun x => Py.one_line x = true) xs ->
  Py.splitlines (bullet_list xs) = map (fun x => "- " ++ x)%string xs.
Proof.
  intros Hxs. unfold bullet_list. apply splitlines_join.
  apply List.Forall_map. eapply Forall_impl; [exact Hxs|].
  intros x Hx. split; [done|]. exact Hx.
Qed.

(** X12. [write_final_report] sends the learnings as a list of bullets and
    appends the sources to what the completion service answers: after the
    header, one bullet line per visited url, in order, when no url holds a
    line boundary. An exception of the completion service is passed on. *)
Theorem write_final_report_sources
    (World : Type) (complete : string -> World -> response string * World)
    (prompt : string) (learnings visited_urls : list string)
    (st : state World) reply (w : World) :
  complete (report_prompt prompt (bullet_list learnings)) (world st)
    = (reply, w) ->
  Forall (fun u => Py.one_line u = true) visited_urls ->
  match reply with
  | Returns report =>
      exists url_section,
        write_final_report World complete prompt learnings visited_urls st
        = (Ok (report ++ newline ++ newline ++ "## Sources" ++ newline
                 ++ url_section)%string,
           set_world st w) /\
        Py.splitlines url_section
        = map (fun u => "- " ++ u)%string visited_urls
  | Raises e =>
      write_final_report World complete prompt learnings visited_urls st
      = (Raise e, set_world st w)
  end.
Proof.
  intros Hc Hurls. unfold write_final_report, bind, lift, ret. rewrite Hc.
  destruct reply as [report|e]; [|done].
  exists (bullet_list visited_urls). split; [done|].
  by apply bullet_list_lines.
Qed.

(** X13. [write_final_answer] returns what the completion service answers
    without the white space around it, so that stripping the answer again
    changes nothing; an exception of the completion service is passed
    on. *)
Theorem write_final_answer_stripped
    (World : Type) (complete : string -> World -> response string * World)
    (prompt : string) (learnings : list string)
    (st : state World) reply (w : World) :
  complete (answer_prompt prompt (Py.join newline learnings)) (world st)
    = (reply, w) ->
  match reply with
  | Returns text =>
      exists answer,
        write_final_answer World complete prompt learnings st
        = (Ok answer, set_world st w) /\
        answer = Py.strip text /\ Py.strip answer = answer /\
        Py.len answer <= Py.len text
  | Raises e =>
      write_final_answer World complete prompt learnings st
      = (Raise e, set_world st w)
  end.
Proof.
  intros Hc. unfold write_final_answer, bind, lift, ret. rewrite Hc.
  destruct reply as [text|e]; [|done].
  exists (Py.strip text). split; [done|]. split; [done|].
  split; [apply strip_idem|apply strip_length].
Qed.

(** *** The search client *)

(** X14. [get_firecrawl_client] builds the client on the first call and hands
    out that same client ever after: the environment is read once, and a
    key set later is not seen. The base url of the client it builds is
    never empty. *)
Theorem get_firecrawl_client_once getenv1 getenv2 slot :
  let first := get_firecrawl_client getenv1 slot in
  get_firecrawl_client getenv2 (snd first) = first /\
  snd first = Some (fst first) /\
  (slot = None ->
   fst first
   = FirecrawlClient_init (getenv1 "FIRECRAWL_KEY"%string)
       (getenv1 "FIRECRAWL_BASE_URL"%string) /\
   client_base_url (fst first) <> EmptyString).
Proof.
  destruct slot as [client|]; simpl.
  - done.
  - split; [done|]. split; [done|]. intros _. split; [done|].
    by destruct (getenv1 "FIRECRAWL_BASE_URL"%string) as [[|c u]|].
Qed.

End ParsingMore.

(** ** Further properties of the orchestrator *)

Section ResearchMore.

Import Research.

Context {World : Type}.
Context (complete : string -> World -> response string * World).
Context (http_search :
  string -> Z -> World -> response (list SearchResult) * World).
Context (api_key : option string).

Local Abbreviation search :=
  (FirecrawlClient_search World http_search api_key).
Local Abbreviation step :=
  (research_step World complete http_search api_key).
Local Abbreviation loop :=
  (research_loop World complete http_search api_key).
Local Abbreviation body :=
  (research_body World complete http_search api_key).
Local Abbreviation dr :=
  (deep_research_fuel World complete http_search api_key).

Lemma plan_reply q n l (st : state World) reply w :
  complete (serp_prompt q n l) (world st) = (reply, w) ->
  generate_serp_queries World complete q n l st
  = (match reply with
     | Returns text => Ok (parse_serp_queries text n)
     | Raises e => Raise e
     end, set_world st w).
Proof.
  intros Hc. unfold generate_serp_queries, bind, lift. rewrite Hc.
  by destruct reply.
Qed.

Lemma process_reply q res n m (st : state World) reply w :
  complete (result_prompt q res n m) (world st) = (reply, w) ->
  process_serp_result World complete q res n m st
  = (match reply with
     | Returns output => Ok (parse_serp_result output n m)
     | Raises e => Raise e
     end, set_world st w).
Proof.
  intros Hc. unfold process_serp_result, bind, lift. rewrite Hc.
  by destruct reply.
Qed.

(** *** Exceptions that are not caught *)

(** X15. Only the search is guarded. An exception of the completion service
    while planning ends the call with that exception before anything is
    reported; an exception of the completion service while extracting from
    a successful search, or any exception of a step, a nested call
    included, ends the loop with that exception, and the results collected
    so far are not returned. *)
Theorem completion_failure_propagates :
  (forall fuel on_progress q b d L V (st : state World) e w,
     complete (serp_prompt q b L) (world st) = (Raises e, w) ->
     exists st',
       dr (S fuel) on_progress q b d L V st = (Raise e, st') /\
       world st' = w /\ observed st' = observed st) /\
  (forall rec on_progress r b d L V qs results q (st : state World)
          res st1 e w,
     search (Research.query q) 5 st = (Ok res, st1) ->
     complete (result_prompt (Research.query q) res 3 (Z.max 1 (b / 2)))
       (world st1) = (Raises e, w) ->
     loop rec on_progress r b d L V (q :: qs) results st
     = (Raise e, set_world st1 w)) /\
  (forall rec on_progress r b d L V qs results q (st : state World) e st',
     step rec on_progress r b d L V results q st = (Raise e, st') ->
     loop rec on_progress r b d L V (q :: qs) results st = (Raise e, st')).
Proof.
  split; [|split].
  - intros fuel on_progress q b d L V st e w Hc. cbn [deep_research_fuel].
    unfold research_body, bind, new_progress.
    rewrite (plan_reply q b L _ (Raises e) w) by exact Hc.
    eexists. split; [reflexivity|]. done.
  - intros rec on_progress r b d L V qs results q st res st1 e w Hs Hc.
    cbn [research_loop]. unfold bind at 1, research_step. rewrite Hs.
    unfold research_found, bind.
    by rewrite (process_reply _ _ _ _ _ (Raises e) w) by exact Hc.
  - intros rec on_progress r b d L V qs results q st e st' Hs.
    cbn [research_loop]. unfold bind at 1. by rewrite Hs.
Qed.

(** *** Without a key *)

Lemma loop_without_key rec on_progress r b d L V :
  api_key = None \/ api_key = Some EmptyString ->
  forall qs results (st : state World),
    loop rec on_progress r b d L V qs results st = (Ok results, st).
Proof.
  intros Hkey. induction qs as [|q qs IH]; intros results st; [done|].
  cbn [research_loop]. unfold bind at 1, research_step.
  unfold FirecrawlClient_search. destruct Hkey as [->| ->]; apply IH.
Qed.

(** X16. Without [FIRECRAWL_KEY], or with an empty one, every search raises
    [RuntimeError] before any request is made; a research call then plans
    its queries, skips them all and returns an empty result: its progress
    object counts the planned queries and no completed one, and the world
    is as the planning left it. *)
Theorem research_without_key :
  api_key = None \/ api_key = Some EmptyString ->
  (forall q limit (st : state World),
     search q limit st = (Raise RuntimeError, st)) /\
  (forall fuel on_progress q b d L V (st : state World) text w,
     complete (serp_prompt q b L) (world st) = (Returns text, w) ->
     exists st' p,
       dr (S fuel) on_progress q b d L V st
       = (Ok (mkResearchResult [] []), st') /\
       world st' = w /\
       heap st' = heap st ++ [p] /\
       completed_queries p = 0 /\
       total_queries p = Z.of_nat (length (parse_serp_queries text b))).
Proof.
  intros Hkey. split.
  - intros q limit st. unfold FirecrawlClient_search.
    by destruct Hkey as [->| ->].
  - intros fuel on_progress q b d L V st text w Hc.
    cbn [deep_research_fuel].
    unfold research_body, bind, new_progress.
    rewrite (plan_reply q b L _ (Returns text) w) by exact Hc.
    unfold report at 1. rewrite loop_without_key by done.
    cbn. eexists _, _. split; [reflexivity|].
    rewrite <- (Nat.add_0_r (length (heap st))), alter_app_r. done.
Qed.

(** *** The progress object of a call that returned *)

Section Fields.

Variable rec : string -> Z -> Z -> list string -> list string ->
               M World ResearchResult.
Hypothesis rec_frame :
  forall q b d L V (st : state World) i p,
    heap st !! i = Some p -> heap (snd (rec q b d L V st)) !! i = Some p.

Lemma loop_fields on_progress r b d L V qs results (st : state World)
    results' st' p :
  heap st !! r = Some p ->
  loop rec on_progress r b d L V qs results st = (Ok results', st') ->
  exists p', heap st' !! r = Some p' /\ same_but_completed p p'.
Proof.
  intros Hp Hl.
  pose proof (loop_keeps_fields complete http_search api_key rec rec_frame
                on_progress r b d L V qs results st p Hp) as H.
  by rewrite Hl in H.
Qed.

End Fields.

(** X18. When a call returns, the progress object it created still carries the
    depth and the breadth of the call both as current and as total values,
    and as current query the first planned query: only [completed_queries]
    moves, from 0 up to at most [total_queries], the number of planned
    queries. *)
Theorem progress_object_after_call fuel on_progress q b d L V
    (st : state World) r st' :
  dr (S fuel) on_progress q b d L V st = (Ok r, st') ->
  exists text w p,
    complete (serp_prompt q b L) (world st) = (Returns text, w) /\
    heap st' !! length (heap st) = Some p /\
    current_depth p = d /\ total_depth p = d /\
    current_breadth p = b /\ total_breadth p = b /\
    total_queries p = Z.of_nat (length (parse_serp_queries text b)) /\
    current_query p = Research.query <$> head (parse_serp_queries text b) /\
    0 <= completed_queries p <= total_queries p.
Proof.
  cbn [deep_research_fuel]. unfold research_body, bind, new_progress.
  destruct (complete (serp_prompt q b L) (world st)) as [reply w] eqn:Hc.
  rewrite (plan_reply q b L _ reply w) by exact Hc.
  destruct reply as [text|e]; [|discriminate].
  set (qs := parse_serp_queries text b).
  unfold report at 1. cbn -[research_loop].
  match goal with
  | |- context [loop ?rec on_progress ?r0 b d L V qs [] ?s] =>
      set (st1 := s);
      destruct (loop rec on_progress r0 b d L V qs [] st1)
        as [[results|e|] st2] eqn:Hl; [|discriminate..]
  end.
  cbn. intros [= <- <-].
  set (p1 := mkResearchProgress d d b b
               match qs with
               | [] => None
               | q0 :: _ => Some (Research.query q0)
               end (Z.of_nat (length qs)) 0).
  assert (heap st1 !! length (heap st) = Some p1) as Hp1.
  { subst st1. cbn.
    rewrite <- (Nat.add_0_r (length (heap st))), alter_app_r.
    by rewrite lookup_app_r, Nat.add_0_r, Nat.sub_diag by lia. }
  destruct (loop_fields _
              (fun q b d L V st i p =>
                 proj1 (deep_research_call_effect complete http_search
                          api_key fuel on_progress q b d L V st) i p)
              _ _ _ _ _ _ _ _ _ _ _ _ Hp1 Hl)
    as (p & Hp & Hd1 & Hd2 & Hb1 & Hb2 & Hq & Ht).
  destruct (loop_counts complete http_search api_key _
              (deep_research_call_effect complete http_search api_key fuel
                 on_progress)
              _ _ _ _ _ _ _ _ _ _ _ _ Hp1 Hl)
    as (p' & Hp' & Hcount & Hlen).
  assert (p' = p) as -> by congruence.
  exists text, w, p. split; [done|]. split; [done|].
  simpl in *. repeat split; try done.
  - rewrite Hq. unfold qs. by destruct (parse_serp_queries text b).
  - lia.
  - lia.
Qed.

(** *** What a call was given comes first *)

Lemma fromkeys_fold_fresh xs acc :
  NoDup (acc ++ xs) -> fold_left Py.fromkeys_insert xs acc = acc ++ xs.
Proof.
  revert acc. induction xs as [|x xs IH]; intros acc Hnd; simpl.
  - by rewrite app_nil_r.
  - unfold Py.fromkeys_insert at 2.
    destruct (existsb _ acc) eqn:Hx.
    + apply existsb_eqb_In, list_elem_of_In in Hx.
      apply NoDup_app in Hnd as (_ & Hnd & _). exfalso.
      apply (Hnd x Hx). left.
    + rewrite IH; [by rewrite <- app_assoc|]. by rewrite <- app_assoc.
Qed.

Lemma fromkeys_idem xs : Py.fromkeys (Py.fromkeys xs) = Py.fromkeys xs.
Proof.
  apply (fromkeys_fold_fresh (Py.fromkeys xs) []).
  apply (fromkeys_fold_NoDup xs []), NoDup_nil_2.
Qed.

Lemma keeps_given_concat given xss :
  Forall (keeps_given given) xss -> keeps_given given (concat xss).
Proof.
  induction 1 as [|xs xss [->|[rest Hxs]] _ IH]; [by left|done|].
  right. simpl. destruct (fromkeys_app xs (concat xss)) as [rest' ->].
  exists (rest ++ rest'). by rewrite Hxs, <- app_assoc.
Qed.

Lemma keeps_given_snoc given extra xs :
  Py.fromkeys xs = xs ->
  xs = [] \/ (exists rest, xs = Py.fromkeys (given ++ extra) ++ rest) ->
  keeps_given given xs.
Proof.
  intros Hid [->|[rest Hxs]]; [by left|]. right.
  destruct (fromkeys_app given extra) as [rest0 Hg].
  exists (rest0 ++ rest). by rewrite Hid, Hxs, Hg, <- app_assoc.
Qed.

Lemma keeps_given_result given xs :
  keeps_given given xs ->
  Py.fromkeys xs = [] \/
  exists rest, Py.fromkeys xs = Py.fromkeys given ++ rest.
Proof. intros [->|H]; [by left|by right]. Qed.

Section Given.

Variable rec : string -> Z -> Z -> list string -> list string ->
               M World ResearchResult.
Hypothesis rec_given :
  forall q b d L V (st : state World) r st',
    rec q b d L V st = (Ok r, st') ->
    (Py.fromkeys (learnings r) = learnings r /\
     (learnings r = [] \/
      exists rest, learnings r = Py.fromkeys L ++ rest)) /\
    (Py.fromkeys (visited_urls r) = visited_urls r /\
     (visited_urls r = [] \/
      exists rest, visited_urls r = Py.fromkeys V ++ rest)).

Lemma loop_given on_progress r b d L V qs results (st : state World)
    results' st' :
  Forall (fun res => keeps_given L (learnings res) /\
                     keeps_given V (visited_urls res)) results ->
  loop rec on_progress r b d L V qs results st = (Ok results', st') ->
  Forall (fun res => keeps_given L (learnings res) /\
                     keeps_given V (visited_urls res)) results'.
Proof.
  revert results st. induction qs as [|q qs IH]; intros results st Hres.
  - cbn. by intros [= <- <-].
  - cbn [research_loop]. unfold bind at 1.
    destruct (step rec on_progress r b d L V results q st)
      as [[results1|e|] st1] eqn:Hs; [|discriminate..].
    apply IH. revert Hs. unfold research_step.
    destruct (search _ _ st) as [[res|e|] st0]; [|by intros [= <- <-]|done].
    unfold research_found, bind.
    destruct (process_serp_result _ _ _ _ _ _ st0)
      as [[[nl fu]|e|] st2]; [|discriminate..].
    destruct (new_depth d >? 0).
    + destruct (rec _ _ _ _ _ st2) as [[sub|e|] st3] eqn:Hr;
        [|discriminate..].
      apply rec_given in Hr as [[Hl1 Hl2] [Hu1 Hu2]].
      cbn. unfold report, ret. cbn. intros [= <- <-].
      apply Forall_app. split; [done|]. apply Forall_singleton.
      split; by eapply keeps_given_snoc.
    + cbn. unfold report, ret. cbn. intros [= <- <-].
      apply Forall_app. split; [done|]. apply Forall_singleton.
      split; right; apply fromkeys_app.
Qed.

End Given.

Lemma deep_research_given fuel on_progress q b d L V (st : state World)
    r st' :
  dr fuel on_progress q b d L V st = (Ok r, st') ->
  (Py.fromkeys (learnings r) = learnings r /\
   (learnings r = [] \/ exists rest, learnings r = Py.fromkeys L ++ rest)) /\
  (Py.fromkeys (visited_urls r) = visited_urls r /\
   (visited_urls r = [] \/
    exists rest, visited_urls r = Py.fromkeys V ++ rest)).
Proof.
  revert q b d L V st r st'.
  induction fuel as [|fuel IH]; intros q b d L V st r st'; [discriminate|].
  cbn [deep_research_fuel].
  intros (qs & results & st1 & Hl & ->)%body_returns_merge.
  apply (loop_given _ (IH)) in Hl; [|done].
  unfold merge_results. rewrite merge_results_fold. simpl.
  split; (split; [apply fromkeys_idem|]); apply keeps_given_result,
    keeps_given_concat.
  - apply List.Forall_map. eapply Forall_impl; [exact Hl|]. by intros ? [? ?].
  - apply List.Forall_map. eapply Forall_impl; [exact Hl|]. by intros ? [? ?].
Qed.

(** X19. What a call returns is either empty or begins with what it was given:
    the learnings returned are none at all, or the learnings passed in,
    without their duplicates and in their order, followed by the new ones;
    and so for the visited urls. *)
Theorem result_begins_with_given fuel on_progress q b d L V
    (st : state World) r st' :
  dr fuel on_progress q b d L V st = (Ok r, st') ->
  (learnings r = [] \/ exists rest, learnings r = Py.fromkeys L ++ rest) /\
  (visited_urls r = [] \/
   exists rest, visited_urls r = Py.fromkeys V ++ rest).
Proof.
  intros [[_ Hl] [_ Hu]]%deep_research_given. done.
Qed.

End ResearchMore.

(** * Runs of the further properties *)

Section MoreRuns.

Import TextSplitter Research.

Lemma split_text_returns_witness :
  exists chunks,
    split_text 12 (splitter 6 0) "hello world" = Ok chunks.
Proof.
  apply (split_text_returns (splitter 6 0) "hello world").
  - simpl. lia.
  - simpl. lia.
  - simpl. tauto.
Defined.

Lemma split_text_packed_witness :
  Forall (packed (splitter 6 0) "hello world") ["hello"; "world"]%string.
Proof.
  apply (split_text_packed 12 (splitter 6 0) "hello world").
  vm_compute. reflexivity.
Defined.

Lemma split_text_chunks_stripped_witness :
  Forall (fun chunk => chunk <> EmptyString /\ Py.strip chunk = chunk)
    ["a"; "b c"]%string.
Proof.
  apply (split_text_chunks_stripped 12 (splitter 6 0) "  a  ,  b c ").
  vm_compute. reflexivity.
Defined.

Lemma merge_splits_chunk_length_witness :
  Forall (fun chunk => Py.len chunk <= 10)
    ["aaabbb"; "bbbccccdd"; "ddeeeee"]%string.
Proof.
  refine (proj2 (merge_splits_chunk_length (mkTextSplitter 10 4)
                   ["aaa"; "bbb"; "cccc"; "dd"; "eeeee"]%string EmptyString
                   _ _ _) eq_refl).
  - repeat constructor.
  - vm_compute. reflexivity.
Defined.

Lemma merge_step_overlap_witness :
  exists dropped kept,
    ["aaa"; "bbb"; "cc"]%string = dropped ++ kept /\
    sum_len kept <= 3 /\
    merge_step (mkTextSplitter 10 3) " "
      (mkMergeState [] ["aaa"; "bbb"; "cc"]%string 8) "dddd"
    = Ok (mkMergeState ["aaa bbb cc"%string] (kept ++ ["dddd"%string])
            (sum_len (kept ++ ["dddd"%string]))).
Proof.
  destruct (merge_step_overlap (mkTextSplitter 10 3) " "
              (mkMergeState [] ["aaa"; "bbb"; "cc"]%string 8) "dddd"
              (mkMergeState ["aaa bbb cc"%string] ["cc"; "dddd"]%string 6))
    as (dropped & kept & Hcur & Hnext & Hkept & _).
  - reflexivity.
  - discriminate.
  - vm_compute. discriminate.
  - vm_compute. reflexivity.
  - exists dropped, kept. simpl in Hcur, Hnext, Hkept.
    split; [exact Hcur|]. split; [exact Hkept|].
    rewrite <- Hnext. vm_compute. reflexivity.
Defined.

Lemma merge_splits_negative_overlap_witness :
  init 4 (-1) = Ok (mkTextSplitter 4 (-1)) /\
  merge_splits (mkTextSplitter 4 (-1)) ["ab"; "cd"; "ef"]%string " "
  = Raise IndexError.
Proof.
  apply (merge_splits_negative_overlap (mkTextSplitter 4 (-1)) "ab" "cd"
           ["ef"%string] " ").
  - simpl. lia.
  - simpl. lia.
  - vm_compute. discriminate.
Defined.

Lemma split_on_join_witness :
  Py.join "," ["a"; "b"; ""; "c"]%string = "a,b,,c"%string.
Proof.
  apply (split_on_join "a,b,,c" "," ["a"; "b"; ""; "c"]%string).
  vm_compute. reflexivity.
Defined.

Lemma split_documents_concat_witness :
  split_documents 12 (splitter 6 0) ["hello world"; ""; "foo"]%string
  = Ok ["hello"; "world"; "foo"]%string /\
  split_documents 12 (splitter 6 0) ["hello world"; "foo"]%string
  = split_documents 12 (splitter 6 0) ["hello world"; ""; "foo"]%string.
Proof.
  apply (split_documents_concat 12 (splitter 6 0)
           ["hello world"; ""; "foo"]%string
           [["hello"; "world"]; []; ["foo"]]%string).
  repeat constructor.
Defined.

Lemma process_serp_result_lines_witness :
  process_serp_result Stub.World Stub.complete "alpha"
    [mkSearchResult "http://alpha" "page"] 3 2 Stub.node
  = (Ok (["about "%string], ["why?"%string]), Stub.node).
Proof.
  refine (proj1 (process_serp_result_lines Stub.World Stub.complete "alpha"
                   [mkSearchResult "http://alpha" "page"] 3 2 Stub.node
                   ("- about " ++ newline ++ "why?")%string ""%string
                   _ _ _)).
  - lia.
  - lia.
  - reflexivity.
Defined.

Lemma parse_serp_queries_of_lines_witness :
  parse_serp_queries
    (Py.join newline ["alpha"; "beta gamma"; "delta"]%string) 2
  = [mkSerpQuery "alpha" "alpha"; mkSerpQuery "beta gamma" "beta gamma"].
Proof.
  apply (parse_serp_queries_of_lines
           ["alpha"; "beta gamma"; "delta"]%string 2).
  - lia.
  - repeat constructor; discriminate.
Defined.

Lemma write_final_report_sources_witness :
  exists url_section,
    write_final_report Stub.World Stub.complete "topic"
      ["about alpha"%string] ["http://alpha"; "http://gamma"]%string
      Stub.start
    = (Ok ("- about " ++ newline ++ "why?" ++ newline ++ newline
             ++ "## Sources" ++ newline ++ url_section)%string,
       Stub.start) /\
    Py.splitlines url_section
    = ["- http://alpha"; "- http://gamma"]%string.
Proof.
  refine (write_final_report_sources Stub.World Stub.complete "topic"
            ["about alpha"%string] ["http://alpha"; "http://gamma"]%string
            Stub.start (Returns ("- about " ++ newline ++ "why?")%string)
            ""%string _ _).
  - reflexivity.
  - repeat constructor.
Defined.

Lemma write_final_answer_stripped_witness :
  exists answer,
    write_final_answer Stub.World Stub.complete "Generate an answer"
      ["about alpha"%string] Stub.start
    = (Ok answer, Stub.start) /\
    Py.strip answer = answer /\
    Py.len answer <= Py.len Stub.plan_text.
Proof.
  destruct (write_final_answer_stripped Stub.World Stub.complete
              "Generate an answer" ["about alpha"%string] Stub.start
              (Returns Stub.plan_text) ""%string eq_refl)
    as (answer & Hrun & _ & Hidem & Hlen).
  exists answer. split; [exact Hrun|]. split; [exact Hidem|exact Hlen].
Defined.

Lemma get_firecrawl_client_once_witness :
  get_firecrawl_client (fun _ => Some "later"%string)
    (snd (get_firecrawl_client (fun _ => None) None))
  = get_firecrawl_client (fun _ => None) None /\
  client_api_key (fst (get_firecrawl_client (fun _ => None) None)) = None /\
  client_base_url (fst (get_firecrawl_client (fun _ => None) None))
  <> EmptyString.
Proof.
  destruct (get_firecrawl_client_once (fun _ => None)
              (fun _ => Some "later"%string) None) as (Hsame & _ & Hnew).
  destruct (Hnew eq_refl) as [Hinit Hurl].
  split; [exact Hsame|]. split; [|exact Hurl].
  rewrite Hinit. reflexivity.
Defined.

Lemma completion_failure_propagates_witness :
  (exists st',
     deep_research_fuel Stub.World Stub.failing_complete Stub.http_search
       Stub.api_key 1 true "topic" 4 1 [] [] Stub.start
     = (Raise (ServiceError 429), st') /\
     world st' = ""%string /\ observed st' = []) /\
  fst (research_loop Stub.World Stub.planning_complete Stub.http_search
         Stub.api_key Stub.no_call true 0 4 1 [] []
         [mkSerpQuery "alpha" "alpha"; mkSerpQuery "delta" "delta"]%string
         [] Stub.node)
  = Raise (ServiceError 429).
Proof.
  split.
  - apply (proj1 (completion_failure_propagates Stub.failing_complete
                    Stub.http_search Stub.api_key)
             0%nat true "topic"%string 4 1 [] [] Stub.start).
    reflexivity.
  - rewrite (proj1 (proj2 (completion_failure_propagates
                             Stub.planning_complete Stub.http_search
                             Stub.api_key))
               Stub.no_call true 0%nat 4 1 [] []
               [mkSerpQuery "delta" "delta"]%string []
               (mkSerpQuery "alpha" "alpha") Stub.node
               [mkSearchResult "http://alpha" "page"]
               (set_world Stub.node "alpha"%string)
               (ServiceError 429) "alpha"%string).
    + reflexivity.
    + vm_compute. reflexivity.
    + vm_compute. reflexivity.
Defined.

Lemma research_without_key_witness :
  exists st' p,
    deep_research_fuel Stub.World Stub.complete Stub.http_search None
      1 true "topic" 4 1 [] [] Stub.start
    = (Ok (mkResearchResult [] []), st') /\
    heap st' = [p] /\ completed_queries p = 0 /\ total_queries p = 4.
Proof.
  destruct (proj2 (research_without_key Stub.complete Stub.http_search None
                     (or_introl eq_refl))
              0%nat true "topic"%string 4 1 [] [] Stub.start Stub.plan_text
              ""%string eq_refl)
    as (st' & p & Hrun & _ & Hheap & Hdone & Htotal).
  exists st', p. split; [exact Hrun|]. split; [exact Hheap|].
  split; [exact Hdone|exact Htotal].
Defined.

Lemma progress_object_after_call_witness :
  exists p,
    heap (snd (Stub.run 4 1)) !! 0%nat = Some p /\
    current_depth p = 1 /\ current_breadth p = 4 /\
    total_queries p = 4 /\ current_query p = Some "alpha"%string /\
    0 <= completed_queries p <= 4.
Proof.
  destruct (progress_object_after_call Stub.complete Stub.http_search
              Stub.api_key 2 true "topic"%string 4 1 [] [] Stub.start
              (mkResearchResult ["about alpha"; "about gamma";
                                 "about delta"]%string
                 ["http://alpha"; "http://gamma"; "http://delta"]%string)
              (snd (Stub.run 4 1)))
    as (text & w & p & Hplan & Hp & Hd & _ & Hb & _ & Htotal & Hquery & Hdone).
  - vm_compute. reflexivity.
  - injection Hplan as <- _. exists p.
    split; [exact Hp|]. split; [exact Hd|]. split; [exact Hb|].
    split; [exact Htotal|]. split; [exact Hquery|].
    rewrite Htotal in Hdone. exact Hdone.
Defined.

Lemma result_begins_with_given_witness :
  exists rest,
    learnings (match fst (deep_research_fuel Stub.World Stub.complete
                            Stub.http_search Stub.api_key 3 true "topic" 4 1
                            ["old"; "old"; "older"]%string [] Stub.start)
               with Ok r => r | _ => mkResearchResult [] [] end)
    = ["old"; "older"]%string ++ rest.
Proof.
  destruct (result_begins_with_given Stub.complete Stub.http_search
              Stub.api_key 3 true "topic"%string 4 1
              ["old"; "old"; "older"]%string [] Stub.start
              (match fst (deep_research_fuel Stub.World Stub.complete
                            Stub.http_search Stub.api_key 3 true "topic" 4 1
                            ["old"; "old"; "older"]%string [] Stub.start)
               with Ok r => r | _ => mkResearchResult [] [] end)
              (snd (deep_research_fuel Stub.World Stub.complete
                      Stub.http_search Stub.api_key 3 true "topic" 4 1
                      ["old"; "old"; "older"]%string [] Stub.start)))
    as [[Hnone|Hsome] _].
  - vm_compute. reflexivity.
  - vm_compute in Hnone. discriminate.
  - exact Hsome.
Defined.

End MoreRuns.
